(** * Trajectory analysis and training-data preparation scripts

    A shallow embedding of the parts of the repository that the
    specification makes checkable statements about:

    - [analysis/analyze_trajectories.py]: direction classification
      ([get_direction_info]) and flattening ([try_flattening]);
    - [trajectory_collection/simplified_process_react.py]: the quality
      gate ([_filter_messages]), the token-budget trimmer
      ([check_context_size]) and the sanitizers ([_filter_train_data],
      [_clean_observation], [_trainable_chat_postprocessing]);
    - [analysis/analyze_trajectory_success.py] and
      [analysis/analyze_o4_mini_trajectories.py]: the success reducers.

    Python [str] values are modelled as lists of characters whose code
    points lie below 256 ([list ascii], read as Latin-1); on such text
    [str.lower], [str.strip], [str.isspace] and the classes [\s], [\w],
    [\d] and [\b] of [re] act exactly as defined in [Py] below.  Text
    with code points from 256 on is outside the model. *)

From Stdlib Require Import Ascii String NArith ZArith QArith.
From stdpp Require Import base option list gmap strings.

Local Open Scope bool_scope.

(** ** Python strings *)

Abbreviation str := (list ascii).

Coercion String.list_ascii_of_string : string >-> list.

Module Py.

(** Character code, as [ord]. *)
Definition ord (c : ascii) : N := N_of_ascii c.

Definition between (lo hi : N) (c : ascii) : bool :=
  (lo <=? ord c)%N && (ord c <=? hi)%N.

(** The ranges [A-Z], [a-z] and [0-9]; the last is also the class [\d]
    below 256. *)
Definition is_upper (c : ascii) : bool := between 65 90 c.
Definition is_lower (c : ascii) : bool := between 97 122 c.
Definition is_digit (c : ascii) : bool := between 48 57 c.
(** The ASCII letters, as the explicit ranges [A-Za-z] of the patterns. *)
Definition is_alpha (c : ascii) : bool := is_upper c || is_lower c.

(** [str.isspace], which is also what [str.strip] removes and what [\s]
    matches: TAB, LF, VT, FF, CR, FS, GS, RS, US, SPACE, and above ASCII
    NEL (U+0085) and the no-break space (U+00A0). *)
Definition is_space (c : ascii) : bool :=
  between 9 13 c || between 28 32 c || (ord c =? 133)%N || (ord c =? 160)%N.

(** The upper-case letters above ASCII: U+00C0 to U+00DE without the
    multiplication sign U+00D7. *)
Definition is_upper_latin1 (c : ascii) : bool :=
  between 192 214 c || between 216 222 c.

(** [str.isalnum] above ASCII: the ordinal indicators U+00AA and U+00BA,
    the micro sign U+00B5, the superscript digits U+00B2, U+00B3, U+00B9,
    the fractions U+00BC to U+00BE, and the letters U+00C0 to U+00FF
    without the multiplication and division signs. *)
Definition is_alnum_latin1 (c : ascii) : bool :=
  (ord c =? 170)%N || (ord c =? 178)%N || (ord c =? 179)%N ||
  (ord c =? 181)%N || (ord c =? 185)%N || (ord c =? 186)%N ||
  between 188 190 c ||
  between 192 214 c || between 216 246 c || between 248 255 c.

(** [\w] of [re] on a [str] pattern: alphanumeric or underscore. *)
Definition is_word (c : ascii) : bool :=
  is_alpha c || is_digit c || (ord c =? 95)%N || is_alnum_latin1 c.

(** [c.lower()]: every upper-case letter below 256 has its lower-case
    form 32 code points higher. *)
Definition lower_char (c : ascii) : ascii :=
  if is_upper c || is_upper_latin1 c then ascii_of_N (ord c + 32) else c.

(** [s.lower()] *)
Definition lower (s : str) : str := lower_char <$> s.

(** [s.startswith(p)] *)
Fixpoint startswith (p s : str) : bool :=
  match p, s with
  | [], _ => true
  | _ :: _, [] => false
  | a :: p', b :: s' => bool_decide (a = b) && startswith p' s'
  end.

(** [sub in s] *)
Fixpoint str_in (sub s : str) : bool :=
  startswith sub s ||
  match s with
  | [] => false
  | _ :: s' => str_in sub s'
  end.

(** [s.strip()] is the empty string. *)
Definition strip_is_empty (s : str) : bool := forallb is_space s.

End Py.

(** ** analysis/analyze_trajectories.py *)

Definition BACKTRACK_KWD : str := "We should take a step back".
Definition GO_BACK_KWD : str := "go_back".

(** A trajectory item is either a state, a plain [dict], or some other
    object, of which only the attributes the scripts probe with [hasattr]
    are kept: an attribute is present exactly when its field is [Some]. *)
Record pyobj := PyObj {
  _direction : option str;
  raw_prediction : option str;
  action_type : option str;
  element_id : option str
}.

Inductive item :=
| Dict (d : gmap string str)
| Obj (o : pyobj).

(** [isinstance(item, dict)] *)
Definition is_dict (it : item) : bool :=
  match it with Dict _ => true | Obj _ => false end.

(** [getattr(item, '_direction')] when [hasattr(item, '_direction')]. *)
Definition attr_direction (it : item) : option str :=
  match it with Dict _ => None | Obj o => _direction o end.

Definition attr_raw_prediction (it : item) : option str :=
  match it with Dict _ => None | Obj o => raw_prediction o end.

(** [hasattr(item, 'raw_prediction')]: the scripts' test for an action. *)
Definition is_action (it : item) : bool :=
  match attr_raw_prediction it with Some _ => true | None => false end.

Definition get_direction_info (it : item) : str :=
  match attr_direction it with
  | Some d => d
  | None =>
      match attr_raw_prediction it with
      | Some raw =>
          if Py.str_in BACKTRACK_KWD raw || Py.str_in GO_BACK_KWD (Py.lower raw)
          then "backtrack" : str
          else "forward" : str
      | None => "forward" : str
      end
  end.

Definition is_backtrack (it : item) : bool :=
  bool_decide (get_direction_info it = ("backtrack" : str)).

(** ** The object store

    [try_flattening] builds a new list out of copies of the objects of its
    argument. Lists and trajectory items live in a store of cells; a list
    holds references. The scripts' items hold no references to other
    cells of the store, so [copy.deepcopy] of an item is a copy of its cell
    into a fresh one. *)

Abbreviation loc := positive.

Inductive cell :=
| CItem (it : item)
| CList (refs : list loc).

Abbreviation heap := (gmap loc cell).

(** Store-passing computations that may fail (a failed lookup stands for a
    reference to no object, or to one of the wrong kind). *)
Definition M (A : Type) : Type := heap -> option (A * heap).

#[global] Instance M_ret : MRet M := fun A a h => Some (a, h).
#[global] Instance M_bind : MBind M := fun A B f m h =>
  match m h with
  | Some (a, h') => f a h'
  | None => None
  end.

Definition alloc (c : cell) : M loc := fun h =>
  let l := fresh (dom h) in Some (l, <[l := c]> h).

Definition read_item (l : loc) : M item := fun h =>
  match h !! l with
  | Some (CItem it) => Some (it, h)
  | _ => None
  end.

Definition read_list (l : loc) : M (list loc) := fun h =>
  match h !! l with
  | Some (CList refs) => Some (refs, h)
  | _ => None
  end.

(** [lst.append(x)] *)
Definition list_append (lst x : loc) : M unit := fun h =>
  match h !! lst with
  | Some (CList refs) => Some (tt, <[lst := CList (refs ++ [x])]> h)
  | _ => None
  end.

(** [copy.deepcopy(item)] *)
Definition deepcopy (l : loc) : M loc :=
  it ← read_item l; alloc (CItem it).

(** [for x in xs: body(x)] *)
Fixpoint for_each {A} (xs : list A) (body : A -> M unit) : M unit :=
  match xs with
  | [] => mret tt
  | x :: xs' => body x ≫= fun _ => for_each xs' body
  end.

Fixpoint read_items (refs : list loc) : M (list item) :=
  match refs with
  | [] => mret []
  | r :: refs' => it ← read_item r; its ← read_items refs'; mret (it :: its)
  end.

(** The validity check at the end of [try_flattening]: some state is
    directly followed by an action. *)
Fixpoint has_state_action_pair (l : list item) : bool :=
  match l with
  | a :: (b :: _) as tl => (is_dict a && is_action b) || has_state_action_pair tl
  | _ => false
  end.

Definition flatten_step (flattened_traj : loc) (r : loc) : M unit :=
  it ← read_item r;
  if is_action it then
    if negb (is_backtrack it)
    then c ← deepcopy r; list_append flattened_traj c
    else mret tt
  else c ← deepcopy r; list_append flattened_traj c.

Definition try_flattening (trajectory : loc) : M (loc * bool) :=
  flattened_traj ← alloc (CList []);
  refs ← read_list trajectory;
  for_each refs (flatten_step flattened_traj) ≫= fun _ =>
  out ← read_list flattened_traj;
  vals ← read_items out;
  mret (flattened_traj, has_state_action_pair vals).

(** The items a list of references denotes in a store. *)
Definition items_at (h : heap) (refs : list loc) : option (list item) :=
  mapM (fun r => match h !! r with Some (CItem it) => Some it | _ => None end) refs.

(** Every cell of [h] other than [out] is still there, unchanged. *)
Definition frame (out : loc) (h h' : heap) : Prop :=
  forall l c, l ≠ out -> h !! l = Some c -> h' !! l = Some c.

(** What [try_flattening] keeps: everything but backtracking actions. *)
Definition kept (it : item) : bool := negb (is_action it && is_backtrack it).

(** An action classified [forward]. *)
Definition is_forward_action (it : item) : bool :=
  is_action it && bool_decide (get_direction_info it = ("forward" : str)).

(** [sub] occurs in [s] as a contiguous run of characters. *)
Definition occurs_in (sub s : str) : Prop :=
  exists pre post : str, s = pre ++ sub ++ post.

(** Direction classification as the specification words it: an explicit
    direction attribute wins; otherwise [backtrack] when the rationale
    contains the backtrack phrase or the go-back token, both compared
    without regard to letter case; otherwise [forward]. *)
Definition contains_ignoring_case (sub s : str) : bool :=
  Py.str_in (Py.lower sub) (Py.lower s).

Definition spec_direction (it : item) : str :=
  match attr_direction it with
  | Some d => d
  | None =>
      match attr_raw_prediction it with
      | Some raw =>
          if contains_ignoring_case BACKTRACK_KWD raw
             || contains_ignoring_case GO_BACK_KWD raw
          then "backtrack" : str
          else "forward" : str
      | None => "forward" : str
      end
  end.

(** Sample data: a seven-item trajectory, state and action alternating,
    whose middle action backtracks. *)
Definition sample_state (url : string) : item :=
  Dict {[ "url"%string := (url : str) ]}.

Definition sample_action (raw : string) : item :=
  Obj {| _direction := None; raw_prediction := Some (raw : str);
         action_type := Some ("click" : str); element_id := None |}.

Definition sample_items : list item :=
  [ sample_state "http://gitlab/a"; sample_action "click [12]";
    sample_state "http://gitlab/b"; sample_action "We should take a step back";
    sample_state "http://gitlab/a"; sample_action "click [14]";
    sample_state "http://gitlab/c" ].

Definition sample_refs : list loc := [1; 2; 3; 4; 5; 6; 7]%positive.

Definition sample_heap : heap :=
  <[8%positive := CList sample_refs]>
    (list_to_map (zip sample_refs (CItem <$> sample_items))).

Definition lowercase_phrase_action : item :=
  sample_action "we should take a step back".

(** ** trajectory_collection/simplified_process_react.py *)

(** A chat turn, [{"role": ..., "content": ...}], with string content. *)
Record message := Message { role : str; content : str }.

#[global] Instance message_inhabited : Inhabited message :=
  populate (Message [] []).

#[global] Instance message_eq_dec : EqDecision message.
Proof. solve_decision. Defined.

(** A [tiktoken] encoding, as far as the scripts use it: [encode]. *)
Record tokenizer := Tokenizer { encode : str -> list N }.

Definition count_tokens (text : str) (tok : option tokenizer) : Z :=
  match tok with
  | Some t => Z.of_nat (length (encode t text))
  | None => (Z.of_nat (length text) / 4)%Z
  end.

Definition error_keywords : list str :=
  [ "no matching element found" : str;
    "element not found" : str;
    "could not find element" : str;
    "element not visible" : str;
    "no such element" : str ].

Definition _check_error_messages (content : str) : bool :=
  let content_lower := Py.lower content in
  existsb (fun keyword => Py.str_in keyword content_lower) error_keywords.

(** [_filter_messages]: [true] means the turn list is filtered out. The
    indices used are in range wherever they are evaluated: the length
    check comes first. *)
Definition _filter_messages (messages : list message) (strict_mode : bool) : bool :=
  if bool_decide (messages = []) || (length messages <? 3) then true
  else if existsb
            (fun i => bool_decide (role (messages !!! i) = role (messages !!! (i + 1))))
            (seq 1 (length messages - 1 - 1))
  then true
  else
    let last_message := messages !!! (length messages - 1) in
    if negb (bool_decide (role last_message = ("assistant" : str))) then true
    else
      let content := content last_message in
      if bool_decide (content = []) || Py.strip_is_empty content then true
      else if _check_error_messages content then true
      else if Py.str_in ("go_back" : str) (Py.lower content)
              || Py.str_in ("take a step back" : str) (Py.lower content)
      then true
      else false.

(** [lst.insert(i, x)] *)
Definition py_insert {A} (i : nat) (x : A) (lst : list A) : list A :=
  take i lst ++ x :: drop i lst.

(** [lst[-n:]] and [lst[1:-n]] *)
Definition last_n {A} (n : nat) (lst : list A) : list A :=
  drop (length lst - n) lst.

Definition middle_1_n {A} (n : nat) (lst : list A) : list A :=
  drop 1 (take (length lst - n) lst).

(** [sum(lst)] *)
Fixpoint sum (l : list Z) : Z :=
  match l with
  | [] => 0%Z
  | x :: l' => (x + sum l')%Z
  end.

(** The re-insertion loop of [check_context_size], with its [break]. *)
Fixpoint reinsert_loop (middle : list (message * Z))
    (kept_messages : list message) (remaining_budget : Z) : list message * Z :=
  match middle with
  | [] => (kept_messages, remaining_budget)
  | (msg, tokens) :: rest =>
      if (tokens <=? remaining_budget)%Z
      then reinsert_loop rest (py_insert 1 msg kept_messages) (remaining_budget - tokens)%Z
      else (kept_messages, remaining_budget)
  end.

Definition check_context_size (messages : list message)
    (tok : option tokenizer) (max_tokens : Z) : list message * Z :=
  if bool_decide (messages = []) then (messages, 0%Z)
  else
    let message_tokens := (fun m => count_tokens (content m) tok) <$> messages in
    let total_tokens := sum message_tokens in
    if (total_tokens <=? max_tokens)%Z then (messages, total_tokens)
    else if length messages <=? 7 then (messages, total_tokens)
    else
      let kept_messages := [messages !!! 0] ++ last_n 6 messages in
      let kept_tokens := (message_tokens !!! 0%nat + sum (last_n 6 message_tokens))%Z in
      let middle_messages := middle_1_n 6 messages in
      let middle_tokens := middle_1_n 6 message_tokens in
      let remaining_budget := (max_tokens - kept_tokens)%Z in
      let '(kept_messages, remaining_budget) :=
        reinsert_loop (zip middle_messages middle_tokens) kept_messages remaining_budget in
      (kept_messages, (max_tokens - remaining_budget)%Z).

(** The token total [check_context_size] computes. *)
Definition total_tokens (messages : list message) (tok : option tokenizer) : Z :=
  sum ((fun m => count_tokens (content m) tok) <$> messages).

(** The rejection policy as the specification words it: any two
    consecutive turns, and the backtracking phrases in strict mode only. *)
Definition spec_reject (messages : list message) (strict_mode : bool) : bool :=
  let last_message := messages !!! (length messages - 1) in
  let content := content last_message in
  (length messages <? 3)
  || existsb
       (fun i => bool_decide (role (messages !!! i) = role (messages !!! (i + 1))))
       (seq 0 (length messages - 1))
  || negb (bool_decide (role last_message = ("assistant" : str)))
  || Py.strip_is_empty content
  || _check_error_messages content
  || (strict_mode
      && (Py.str_in ("go_back" : str) (Py.lower content)
          || Py.str_in ("take a step back" : str) (Py.lower content))).

(** Sample turn lists. *)
Definition sys_msg : message :=
  Message ("system" : str) ("You are a helpful web assistant." : str).
Definition user_msg (c : string) : message := Message ("user" : str) (c : str).
Definition assistant_msg (c : string) : message := Message ("assistant" : str) (c : str).

Definition two_user_turns : list message :=
  [ user_msg "Task: open the issue list"; user_msg "Current webpage: [1] link";
    assistant_msg "click [1]" ].

Definition go_back_turns : list message :=
  [ sys_msg; user_msg "Current webpage: [1] link"; assistant_msg "go_back" ].

(** Ten turns of four characters each: one token a turn without a
    tokenizer. *)
Definition ten_turns : list message :=
  [ Message ("system" : str) ("sys0" : str);
    user_msg "usr1"; assistant_msg "ast2"; user_msg "usr3"; assistant_msg "ast4";
    user_msg "usr5"; assistant_msg "ast6"; user_msg "usr7"; assistant_msg "ast8";
    user_msg "usr9" ].

(** The backtracking indicator phrases of [_filter_messages] occur in the
    lower-cased content. *)
Definition has_backtrack_phrase (content : str) : Prop :=
  occurs_in ("go_back" : str) (Py.lower content) \/
  occurs_in ("take a step back" : str) (Py.lower content).

(** The conditions under which [_filter_messages] filters a turn list
    out. A content is empty or whitespace when each of its characters is
    one that [str.strip] removes ([Py.is_space]). *)
Definition rejected (messages : list message) : Prop :=
  length messages < 3 \/
  (exists i a b, 1 <= i /\ messages !! i = Some a /\ messages !! (i + 1) = Some b /\
                 role a = role b) \/
  (exists lm, last messages = Some lm /\
     (role lm <> ("assistant" : str) \/
      Forall (fun c => Py.is_space c) (content lm) \/
      (exists kw, kw ∈ error_keywords /\ occurs_in kw (Py.lower (content lm))) \/
      has_backtrack_phrase (content lm))).

(** ** analysis/analyze_trajectory_success.py and
       analysis/analyze_o4_mini_trajectories.py *)

(** JSON values as [json.load] returns them. Numbers are rationals: the
    reducers only compare a number with zero and divide two counts. *)
#[local] Set Warnings "-register-all".
Inductive json :=
| JNull
| JBool (b : bool)
| JInt (z : Z)
| JFloat (q : Q)
| JStr (s : str)
| JList (l : list json)
| JObj (kvs : list (string * json)).

(** Truth value of a Python object, as in [if x:]. *)
Definition truthy (v : json) : bool :=
  match v with
  | JNull => false
  | JBool b => b
  | JInt z => negb (z =? 0)%Z
  | JFloat q => negb (Qeq_bool q 0)
  | JStr s => negb (bool_decide (s = []))
  | JList l => match l with [] => false | _ => true end
  | JObj kvs => match kvs with [] => false | _ => true end
  end.

(** [v > 0]; [None] is the [TypeError] of comparing a non-number with an
    [int]. [bool] is a subclass of [int]. *)
Definition py_gt_zero (v : json) : option bool :=
  match v with
  | JBool b => Some b
  | JInt z => Some (0 <? z)%Z
  | JFloat q => Some (negb (Qle_bool q 0))
  | _ => None
  end.

(** [isinstance(v, (int, float)) and v > 0] *)
Definition is_positive_number (v : json) : bool :=
  match v with
  | JBool _ | JInt _ | JFloat _ => default false (py_gt_zero v)
  | _ => false
  end.

(** A file [performance_<index>.json]: the index in its name and its
    content, a JSON object, [None] when the content does not parse
    ([json.JSONDecodeError]). *)
Record perf_file := PerfFile {
  pf_index : Z;
  pf_data : option (gmap string json)
}.

(** One value overwriting another when its key is present, as the chain
    of [if key in data: is_success = data[key]] does. *)
Definition probe (data : gmap string json) (key : string) (is_success : json) : json :=
  match data !! key with
  | Some v => v
  | None => is_success
  end.

(** The success decision of [analyze_performance_files] for one parsed
    file. *)
Definition performance_is_success (data : gmap string json) : bool :=
  let is_success := JBool false in
  let is_success := probe data "success" is_success in
  let is_success := probe data "is_success" is_success in
  let is_success := probe data "completed" is_success in
  let is_success :=
    match data !! "score"%string with
    | Some score => if is_positive_number score then JBool true else is_success
    | None => is_success
    end in
  truthy is_success.

(** The loop of [analyze_performance_files] over the sorted files. The
    result is [(successful_indices, failed_indices, detailed_results)];
    of a detailed result only the status is kept. *)
Fixpoint analyze_performance_loop (files : list perf_file)
    (successful_indices failed_indices : list Z) (detailed_results : gmap Z str)
    : list Z * list Z * gmap Z str :=
  match files with
  | [] => (successful_indices, failed_indices, detailed_results)
  | f :: rest =>
      let index := pf_index f in
      match pf_data f with
      | Some data =>
          if performance_is_success data
          then analyze_performance_loop rest (successful_indices ++ [index])
                 failed_indices (<[index := ("SUCCESS" : str)]> detailed_results)
          else analyze_performance_loop rest successful_indices
                 (failed_indices ++ [index]) (<[index := ("FAILED" : str)]> detailed_results)
      | None =>
          analyze_performance_loop rest successful_indices
            (failed_indices ++ [index]) (<[index := ("ERROR" : str)]> detailed_results)
      end
  end.

(** [analyze_performance_files]; [files] are the performance files that
    [glob] finds in the directory, sorted, none when the directory does
    not exist. [None] is [sys.exit(1)], the end of the run when the
    directory is missing or holds no performance file. *)
Definition analyze_performance_files (files : list perf_file)
    : option (list Z * list Z * gmap Z str) :=
  match files with
  | [] => None
  | _ :: _ => Some (analyze_performance_loop files [] [] ∅)
  end.

(** The quotient behind the percentage that [main] prints,
    [len(successful_indices) / len(detailed_results) * 100], as an exact
    number; [main] computes it in double precision and prints it rounded
    to one decimal. *)
Definition success_percentage (successful_indices : list Z)
    (detailed_results : gmap Z str) : Q :=
  inject_Z (Z.of_nat (length successful_indices))
  / inject_Z (Z.of_nat (size detailed_results)) * 100.

(** A trajectory file of [analyze_o4_mini_trajectories]: what
    [load_trajectory] returns for it ([None] when it gives no
    trajectory; otherwise the trajectory and the [score] entry, if any),
    and the content of the matching performance file, if it loads. *)
Record traj_file := TrajFile {
  tf_task_id : Z;
  tf_loaded : option (list item * option json);
  tf_perf_data : option (gmap string json)
}.

Record o4_results := O4Results {
  total_trajectories : nat;
  successful_tasks : nat;
  failed_tasks : nat;
  success_rate : Q
}.

(** [is_successful] of [analyze_trajectories]; [None] is a [TypeError]. *)
Definition o4_is_successful (score : option json)
    (perf_data : option (gmap string json)) : option bool :=
  match score with
  | Some JNull | None =>
      match perf_data with
      | Some pd =>
          if bool_decide (pd = ∅) then Some false
          else match pd !! "scores"%string with
               | Some v => py_gt_zero v
               | None => Some false
               end
      | None => Some false
      end
  | Some v => py_gt_zero v
  end.

Fixpoint o4_loop (files : list traj_file) (total successful failed : nat)
    : option (nat * nat * nat) :=
  match files with
  | [] => Some (total, successful, failed)
  | f :: rest =>
      match tf_loaded f with
      | None => o4_loop rest total successful failed
      | Some (trajectory, score) =>
          is_successful ← o4_is_successful score (tf_perf_data f);
          if is_successful : bool
          then o4_loop rest (S total) (S successful) failed
          else o4_loop rest (S total) successful (S failed)
      end
  end.

(** The success counters of [analyze_trajectories] (the action counters
    of the same loop are left out). [success_rate] is the exact value of
    [successful_tasks / total_trajectories * 100], which the script
    computes in double precision. *)
Definition analyze_trajectories (files : list traj_file) : option o4_results :=
  '(total, successful, failed) ← o4_loop files 0 0 0;
  Some {| total_trajectories := total;
          successful_tasks := successful;
          failed_tasks := failed;
          success_rate :=
            if 0 <? total
            then inject_Z (Z.of_nat successful) / inject_Z (Z.of_nat total) * 100
            else 0 |}.

(** Two performance records: one with [scores: 1.0], one without a score
    field. *)
Definition perf_with_scores : gmap string json :=
  {[ "scores"%string := JFloat 1.0 ]}.
Definition perf_without_score : gmap string json :=
  {[ "times"%string := JFloat 12.5 ]}.

Definition two_performance_files : list perf_file :=
  [ PerfFile 0 (Some perf_with_scores); PerfFile 1 (Some perf_without_score) ].

Definition two_trajectory_files : list traj_file :=
  [ TrajFile 0 (Some (sample_items, None)) (Some perf_with_scores);
    TrajFile 1 (Some (sample_items, None)) (Some perf_without_score) ].

#[local] Set Warnings "-abstract-large-number".

(** ** Regular expressions

    The fragment of Python's [re] that the sanitizers use, with the
    matching order of a backtracking engine: alternatives left to right,
    repetitions greedy. Repetition is of a character class, which is all
    the patterns of the scripts repeat. *)
Inductive regex :=
| Lit (s : str)                        (* the characters of [s] *)
| Cls (p : ascii -> bool)              (* one character of a class *)
| Seq (r1 r2 : regex)                  (* r1 r2 *)
| Alt (r1 r2 : regex)                  (* r1|r2 *)
| Opt (r : regex)                      (* r? *)
| Rep (n : nat) (p : ascii -> bool)    (* [p]{n,} *)
| WordB.                               (* \b *)

Module Re.

Definition is_word_at (c : option ascii) : bool :=
  match c with Some c => Py.is_word c | None => false end.

(** After [s.startswith(p)]: the rest of [s] and its last matched
    character. *)
Fixpoint after_lit (p : str) (prev : option ascii) (s : str)
    : option (option ascii * str) :=
  match p, s with
  | [], _ => Some (prev, s)
  | _ :: _, [] => None
  | a :: p', b :: s' => if bool_decide (a = b) then after_lit p' (Some b) s' else None
  end.

(** [[p]{n,}] followed by [k], longest run first. *)
Fixpoint rep_greedy {R} (p : ascii -> bool) (n : nat) (prev : option ascii) (s : str)
    (k : option ascii -> str -> option R) : option R :=
  let stop := match n with 0 => k prev s | S _ => None end in
  match s with
  | c :: s' =>
      if p c then
        match rep_greedy p (pred n) (Some c) s' k with
        | Some res => Some res
        | None => stop
        end
      else stop
  | [] => stop
  end.

(** [m r prev s k]: match [r] at the head of [s], [prev] being the
    character before it, and go on with [k] on what is left; on failure
    of [k] the next way of matching [r] is tried. *)
Fixpoint m {R} (r : regex) (prev : option ascii) (s : str)
    (k : option ascii -> str -> option R) : option R :=
  match r with
  | Lit p =>
      match after_lit p prev s with
      | Some (prev', s') => k prev' s'
      | None => None
      end
  | Cls p =>
      match s with
      | c :: s' => if p c then k (Some c) s' else None
      | [] => None
      end
  | Seq r1 r2 => m r1 prev s (fun prev' s' => m r2 prev' s' k)
  | Alt r1 r2 =>
      match m r1 prev s k with
      | Some res => Some res
      | None => m r2 prev s k
      end
  | Opt r1 =>
      match m r1 prev s k with
      | Some res => Some res
      | None => k prev s
      end
  | Rep n p => rep_greedy p n prev s k
  | WordB =>
      if xorb (is_word_at prev) (is_word_at (head s)) then k prev s else None
  end.

(** The match of [r] at the head of [s]: what is left of [s] behind it. *)
Definition match_at (r : regex) (prev : option ascii) (s : str) : option str :=
  m r prev s (fun _ rest => Some rest).

(** [re.sub]: [skip] characters of [s] belong to a match already
    replaced. *)
Fixpoint sub_go (r : regex) (repl : str) (prev : option ascii) (s : str)
    (skip : nat) : str :=
  match s with
  | [] =>
      match skip, match_at r prev [] with
      | 0, Some _ => repl
      | _, _ => []
      end
  | c :: s' =>
      match skip with
      | S n => sub_go r repl (Some c) s' n
      | 0 =>
          match match_at r prev s with
          | Some rest =>
              match length s - length rest with
              | 0 => repl ++ c :: sub_go r repl (Some c) s' 0
              | S n => repl ++ sub_go r repl (Some c) s' n
              end
          | None => c :: sub_go r repl (Some c) s' 0
          end
      end
  end.

(** [re.sub(r, repl, s)] *)
Definition sub (r : regex) (repl : str) (s : str) : str :=
  sub_go r repl None s 0.

(** A lower bound on the length of what [r] matches. *)
Fixpoint min_length (r : regex) : nat :=
  match r with
  | Lit p => length p
  | Cls _ => 1
  | Seq r1 r2 => min_length r1 + min_length r2
  | Alt r1 r2 => min_length r1 `min` min_length r2
  | Opt _ => 0
  | Rep n _ => n
  | WordB => 0
  end.

End Re.

(** ** More of Python's [str] *)

Definition newline : ascii := ascii_of_N 10.
Definition tab : ascii := ascii_of_N 9.
Definition double_quote : ascii := ascii_of_N 34.

Fixpoint replace_go (old new s : str) (skip : nat) : str :=
  match s with
  | [] => []
  | c :: s' =>
      match skip with
      | S n => replace_go old new s' n
      | 0 =>
          if Py.startswith old s
          then new ++ replace_go old new s' (length old - 1)
          else c :: replace_go old new s' 0
      end
  end.

(** [s.replace(old, new)] *)
Definition replace (old new s : str) : str :=
  match old with
  | [] => new ++ flat_map (fun c => c :: new) s
  | _ :: _ => replace_go old new s 0
  end.

(** [s.split(sep)] for a one-character separator. *)
Fixpoint split (sep : ascii) (s : str) : list str :=
  match s with
  | [] => [[]]
  | c :: s' =>
      if bool_decide (c = sep) then [] :: split sep s'
      else match split sep s' with
           | cur :: rest => (c :: cur) :: rest
           | [] => [[c]]
           end
  end.

(** [sep.join(parts)] *)
Fixpoint join (sep : str) (parts : list str) : str :=
  match parts with
  | [] => []
  | [p] => p
  | p :: rest => p ++ sep ++ join sep rest
  end.

(** [s.split(sep, 1)] when [sep in s]: the text before the first
    occurrence of [sep] and the text behind it. *)
Fixpoint split_once (sep : str) (s : str) : str * str :=
  if Py.startswith sep s then ([], drop (length sep) s)
  else match s with
       | [] => ([], [])
       | c :: s' => let '(before, rest) := split_once sep s' in (c :: before, rest)
       end.

(** ** The sanitizers of simplified_process_react.py *)

(** The class of [link_pattern]: any character but whitespace, [<], [>]
    and the double quote. *)
Definition url_char (c : ascii) : bool :=
  negb (Py.is_space c
        || bool_decide (c = "<"%char) || bool_decide (c = ">"%char)
        || bool_decide (c = double_quote)).

(** [https?://C+|www\.C+], with [C] the class [url_char]. *)
Definition link_pattern : regex :=
  Alt (Seq (Lit ("http" : str))
         (Seq (Opt (Lit ("s" : str))) (Seq (Lit ("://" : str)) (Rep 1 url_char))))
      (Seq (Lit ("www." : str)) (Rep 1 url_char)).

Definition _replace_links (text : str) : str :=
  Re.sub link_pattern ("[URL]" : str) text.

Definition _filter_train_data (content : str) : str :=
  let content :=
    if 12000 <? length content
    then take 12000 content ++ ("... [truncated]" : str)
    else content in
  let content :=
    Re.sub (Rep 3 (fun c => bool_decide (c = newline))) [newline; newline] content in
  let content := replace ("&gt;" : str) (">" : str)
                   (replace ("&lt;" : str) ("<" : str) content) in
  let content := replace ("&quot;" : str) [double_quote]
                   (replace ("&amp;" : str) ("&" : str) content) in
  let content := Re.sub (Rep 1 (fun c => bool_decide (c = " "%char))) (" " : str) content in
  let content := Re.sub (Rep 1 (fun c => bool_decide (c = tab))) (" " : str) content in
  _replace_links content.

(** [\b\d{20,}\b] *)
Definition long_id_pattern : regex :=
  Seq WordB (Seq (Rep 20 Py.is_digit) WordB).

(** [[A-Za-z0-9._%+-]], [[A-Za-z0-9.-]] and [[A-Z|a-z]] *)
Definition email_local_char (c : ascii) : bool :=
  Py.is_alpha c || Py.is_digit c
  || bool_decide (c = "."%char) || bool_decide (c = "_"%char)
  || bool_decide (c = "%"%char) || bool_decide (c = "+"%char)
  || bool_decide (c = "-"%char).

Definition email_domain_char (c : ascii) : bool :=
  Py.is_alpha c || Py.is_digit c
  || bool_decide (c = "."%char) || bool_decide (c = "-"%char).

Definition email_tld_char (c : ascii) : bool :=
  Py.is_alpha c || bool_decide (c = "|"%char).

(** [\b[A-Za-z0-9._%+-]+@[A-Za-z0-9.-]+\.[A-Z|a-z]{2,}\b] *)
Definition email_pattern : regex :=
  Seq WordB
    (Seq (Rep 1 email_local_char)
       (Seq (Lit ("@" : str))
          (Seq (Rep 1 email_domain_char)
             (Seq (Lit ("." : str)) (Seq (Rep 2 email_tld_char) WordB))))).

(** The two redactions of [_clean_observation]. *)
Definition redact (obs_text : str) : str :=
  Re.sub email_pattern ("[EMAIL]" : str)
    (Re.sub long_id_pattern ("[LONG_ID]" : str) obs_text).

Definition _clean_observation (obs_text : str) : str :=
  let obs_text := redact obs_text in
  let lines := split newline obs_text in
  if 500 <? length lines
  then join [newline] (take 250 lines ++ [("..." : str)] ++ last_n 250 lines)
  else obs_text.

Definition postprocess_content (aggressive_truncation : bool) (role content : str)
    : option str :=
  let content := _filter_train_data content in
  let content :=
    if bool_decide (role = ("user" : str)) && Py.str_in ("Current webpage:" : str) content
    then
      let '(before, obs_part) := split_once ("Current webpage:" : str) content in
      let intro := before ++ ("Current webpage:" : str) in
      let obs_part := _clean_observation obs_part in
      let obs_part :=
        if aggressive_truncation && (2000 <? length obs_part)
        then take 1000 obs_part ++ ("...[truncated]..." : str) ++ last_n 1000 obs_part
        else obs_part in
      intro ++ obs_part
    else content in
  if bool_decide (role = ("assistant" : str)) then
    if _check_error_messages content then None
    else Some (if 2000 <? length content
               then take 2000 content ++ ("...[truncated]" : str)
               else content)
  else Some content.

(** The loop of [_trainable_chat_postprocessing]; [None] is its early
    [return None]. *)
Fixpoint postprocess_loop (aggressive_truncation : bool) (messages : list message)
    : option (list message) :=
  match messages with
  | [] => Some []
  | msg :: rest =>
      content ← postprocess_content aggressive_truncation (role msg) (content msg);
      processed ← postprocess_loop aggressive_truncation rest;
      Some (Message (role msg) content :: processed)
  end.

Definition _trainable_chat_postprocessing (messages : list message)
    (tok : option tokenizer) (max_tokens : Z) : option (list message) :=
  let total_tokens := total_tokens messages tok in
  let aggressive_truncation := (max_tokens <? total_tokens)%Z in
  postprocess_loop aggressive_truncation messages.





(** ** Text that the sanitizers leave alone *)







(** ** analysis/analyze_trajectories.py: the counters *)

Fixpoint count_backtracking_loop (trajectory : list item)
    (backtrack_count total_actions : nat) : nat * nat :=
  match trajectory with
  | [] => (backtrack_count, total_actions)
  | it :: rest =>
      if is_action it
      then count_backtracking_loop rest
             (if is_backtrack it then S backtrack_count else backtrack_count)
             (S total_actions)
      else count_backtracking_loop rest backtrack_count total_actions
  end.

(** [count_backtracking_actions]: [(backtrack_count, total_actions)]. *)
Definition count_backtracking_actions (trajectory : list item) : nat * nat :=
  count_backtracking_loop trajectory 0 0.

(** [current_type] of [analyze_trajectory]. *)
Inductive item_type := TState | TAction | TUnknown.

#[global] Instance item_type_eq_dec : EqDecision item_type.
Proof. solve_decision. Defined.

Definition current_type (it : item) : item_type :=
  if is_dict it then TState
  else if is_action it then TAction
  else TUnknown.

Record trajectory_stats := TrajectoryStats {
  total_length : nat;
  state_count : nat;
  action_count : nat;
  backtrack_count : nat;
  forward_count : nat;
  is_alternating : bool;
  starts_with_state : bool
}.

(** The loop of [analyze_trajectory]; [prev_type] is [None] before the
    first item. *)
Fixpoint analyze_loop (trajectory : list item)
    (states actions backtracks forwards : nat) (alternating : bool)
    (prev_type : option item_type) : nat * nat * nat * nat * bool :=
  match trajectory with
  | [] => (states, actions, backtracks, forwards, alternating)
  | it :: rest =>
      let cur := current_type it in
      let alternating :=
        if bool_decide (prev_type = Some cur) then false else alternating in
      match cur with
      | TState =>
          analyze_loop rest (S states) actions backtracks forwards alternating (Some cur)
      | TAction =>
          if is_backtrack it
          then analyze_loop rest states (S actions) (S backtracks) forwards
                 alternating (Some cur)
          else analyze_loop rest states (S actions) backtracks (S forwards)
                 alternating (Some cur)
      | TUnknown =>
          analyze_loop rest states actions backtracks forwards alternating (Some cur)
      end
  end.

(** [analyze_trajectory]; [None] for an empty trajectory. *)
Definition analyze_trajectory (trajectory : list item) : option trajectory_stats :=
  match trajectory with
  | [] => None
  | first :: _ =>
      let '(states, actions, backtracks, forwards, alternating) :=
        analyze_loop trajectory 0 0 0 0 true None in
      Some {| total_length := length trajectory;
              state_count := states;
              action_count := actions;
              backtrack_count := backtracks;
              forward_count := forwards;
              is_alternating := alternating;
              starts_with_state := is_dict first |}
  end.

(** A trajectory all of whose actions backtrack. *)
Definition only_backtracking_items : list item :=
  [ sample_state "http://gitlab/a"; sample_action "We should take a step back";
    sample_state "http://gitlab/b"; sample_action "I will go_back" ].

Definition only_backtracking_heap : heap :=
  <[5%positive := CList [1; 2; 3; 4]%positive]>
    (list_to_map (zip [1; 2; 3; 4]%positive (CItem <$> only_backtracking_items))).

(** No item has the type of the item before it; [prev] is the type
    before the first item, if any. *)
Fixpoint alternates (prev : option item_type) (l : list item) : bool :=
  match l with
  | [] => true
  | it :: rest =>
      negb (bool_decide (prev = Some (current_type it)))
      && alternates (Some (current_type it)) rest
  end.

(** ** simplified_process_react.py: the format check *)

Definition _filter_chat_format (messages : list message) : bool :=
  if bool_decide (messages = []) || (length messages <? 3) then true
  else
    let last_message := messages !!! (length messages - 1) in
    if negb (bool_decide (role last_message = ("assistant" : str))) then true
    else if bool_decide (content last_message = [])
            || Py.strip_is_empty (content last_message)
    then true
    else if existsb
              (fun i => (0 <? i)
                        && bool_decide (role (messages !!! i) = role (messages !!! (i + 1))))
              (seq 1 (length messages - 1 - 1))
    then true
    else false.

(** The checks [_filter_messages] makes on the final content beyond
    those of [_filter_chat_format]. *)
Definition content_rejected (content : str) : bool :=
  _check_error_messages content
  || Py.str_in ("go_back" : str) (Py.lower content)
  || Py.str_in ("take a step back" : str) (Py.lower content).

(** ** simplified_process_react.py: building the turn lists *)

Definition SYSTEM_PROMPT : str :=
  "You are a helpful web assistant that completes tasks in a web browser. You will be given a task to complete and observations of the current webpage. Your goal is to complete the task by taking the most appropriate action.".

(** The first user turn: the task, the first observation when there is a
    non-empty one, and the first entry of the action history. *)
Definition initial_prompt (intent : str) (observations action_history : list str) : str :=
  let initial_prompt := ("Task: " : str) ++ intent ++ [newline; newline] in
  let initial_prompt :=
    match observations with
    | o0 :: _ =>
        if bool_decide (o0 = []) then initial_prompt
        else initial_prompt ++ ("Current webpage:" : str) ++ [newline] ++ o0
             ++ [newline; newline]
    | [] => initial_prompt
    end in
  initial_prompt ++ ("Action history: " : str) ++ join (", " : str) (take 1 action_history).

(** A later user turn: the observation and the history so far. *)
Definition user_prompt (observation : str) (current_history : list str) : str :=
  ("Current webpage:" : str) ++ [newline] ++ observation ++ [newline; newline]
  ++ ("Action history: " : str) ++ join (", " : str) current_history.

(** The turns for the steps [i] of [steps]; [None] is the [IndexError] of
    an index beyond [observations] or [actions]. *)
Fixpoint later_turns (action_history observations actions : list str)
    (steps : list nat) : option (list message) :=
  match steps with
  | [] => Some []
  | i :: rest =>
      let current_history := take (i + 1) action_history in
      observation ← observations !! i;
      action ← actions !! i;
      more ← later_turns action_history observations actions rest;
      Some (Message ("user" : str) (user_prompt observation current_history)
            :: Message ("assistant" : str) action :: more)
  end.

(** The turn list [_create_partial_trajectories] builds for [end_idx],
    before it is filtered. [task_intent] is the intent found under
    [trajectory["task_info"]["intent"]], if there is one. *)
Definition partial_messages (task_intent : option str)
    (action_history observations actions : list str) (end_idx : nat)
    : option (list message) :=
  let partial_actions := take end_idx actions in
  let partial_observations := take end_idx observations in
  let partial_action_history := take (end_idx + 1) action_history in
  let intent := default ("No intent available" : str) task_intent in
  let messages :=
    [ Message ("system" : str) SYSTEM_PROMPT;
      Message ("user" : str)
        (initial_prompt intent partial_observations partial_action_history) ] in
  let messages :=
    match partial_actions with
    | a0 :: _ => messages ++ [Message ("assistant" : str) a0]
    | [] => messages
    end in
  more ← later_turns partial_action_history partial_observations partial_actions
            (seq 1 (end_idx - 1));
  Some (messages ++ more).

Fixpoint partial_loop (task_intent : option str)
    (action_history observations actions : list str) (strict_mode : bool)
    (end_idxs : list nat) : option (list (list message)) :=
  match end_idxs with
  | [] => Some []
  | end_idx :: rest =>
      messages ← partial_messages task_intent action_history observations actions end_idx;
      partial_trajectories ←
        partial_loop task_intent action_history observations actions strict_mode rest;
      Some (if negb (_filter_messages messages strict_mode)
            then messages :: partial_trajectories
            else partial_trajectories)
  end.

Definition _create_partial_trajectories (task_intent : option str)
    (action_history observations actions : list str)
    (max_traj_length : nat) (strict_mode : bool) : option (list (list message)) :=
  let num_actions := length actions `min` (max_traj_length / 2) in
  partial_loop task_intent action_history observations actions strict_mode
    (seq 1 num_actions).

(** The full turn list of [process_trajectories] when partial
    trajectories are switched off; it is built when [actions] and
    [observations] are not empty. *)
Definition full_messages (intent : str)
    (action_history observations actions : list str) : option (list message) :=
  let messages :=
    [ Message ("system" : str) SYSTEM_PROMPT;
      Message ("user" : str) (initial_prompt intent observations action_history) ] in
  let messages :=
    match actions with
    | a0 :: _ => messages ++ [Message ("assistant" : str) a0]
    | [] => messages
    end in
  more ← later_turns action_history observations actions
            (seq 1 (length actions `min` length observations - 1));
  Some (messages ++ more).

(** The balancing of [process_trajectories]:
    [(actions, observations, action_history)] cut to match. *)
Definition balance (actions observations action_history : list str)
    : list str * list str * list str :=
  if length observations <? length actions
  then (take (length observations) actions, observations,
        take (length observations) action_history)
  else if length actions + 1 <? length observations
  then (actions, take (length actions + 1) observations, action_history)
  else (actions, observations, action_history).

(** Sample extraction result: three actions, three observations. *)
Definition sample_actions : list str :=
  [ "click [12]" : str; "type [7] [bug]" : str; "stop [done]" : str ].
Definition sample_observations : list str :=
  [ "[12] link Issues" : str; "[7] textbox Search" : str; "[3] heading Results" : str ].
Definition sample_history : list str :=
  [ "None" : str; "click on element [12]" : str; "type on element [7]" : str;
    "stop" : str ].

(** The turns every turn list of the builder starts with: the system
    turn, the first user turn and the first action. *)
Definition opening_turns (intent : str)
    (action_history observations actions : list str) : list message :=
  [ Message ("system" : str) SYSTEM_PROMPT;
    Message ("user" : str) (initial_prompt intent observations action_history) ]
  ++ match actions with
     | a0 :: _ => [Message ("assistant" : str) a0]
     | [] => []
     end.

(** ** analyze_o4_mini_trajectories.py: counting actions *)

(** [count_actions]: the items that are not dicts. *)
Fixpoint count_actions_loop (trajectory : list item) (action_count : nat) : nat :=
  match trajectory with
  | [] => action_count
  | it :: rest =>
      if negb (is_dict it) then count_actions_loop rest (S action_count)
      else count_actions_loop rest action_count
  end.

Definition count_actions (trajectory : list item) : nat :=
  match trajectory with
  | [] => 0
  | _ => count_actions_loop trajectory 0
  end.

(** [extract_action_types]. Of an object that is no dict it takes the
    [action_type] attribute, else the [type] attribute, else the name of
    its class; the last two are not part of [pyobj] and are given by
    [type_attr] and [class_name]. *)
Definition action_type_of (type_attr : item -> option str) (class_name : item -> str)
    (it : item) : str :=
  match it with
  | Obj o =>
      match action_type o with
      | Some t => t
      | None => default (class_name it) (type_attr it)
      end
  | Dict _ => default (class_name it) (type_attr it)
  end.

Fixpoint extract_action_types (type_attr : item -> option str)
    (class_name : item -> str) (trajectory : list item) : list str :=
  match trajectory with
  | [] => []
  | it :: rest =>
      if negb (is_dict it)
      then action_type_of type_attr class_name it
           :: extract_action_types type_attr class_name rest
      else extract_action_types type_attr class_name rest
  end.

(** Whether [analyze_trajectories] counts a trajectory file as a
    success: its trajectory loads and [is_successful] comes out true. *)
Definition traj_is_successful (f : traj_file) : bool :=
  match tf_loaded f with
  | Some (_, score) =>
      bool_decide (o4_is_successful score (tf_perf_data f) = Some true)
  | None => false
  end.


(** A performance record that says both [success] and not [completed]. *)
Definition perf_success_not_completed : gmap string json :=
  <["completed"%string := JBool false]> {[ "success"%string := JBool true ]}.

(** A turn list whose assistant turn reports an error. *)
Definition error_turns : list message :=
  [ sys_msg; user_msg "Current webpage: [1] link";
    assistant_msg "click [99] - Element Not Found" ].

(** * Proofs *)

(** ** Store lemmas *)

Section store.
Implicit Types (h : heap) (l r out : loc) (refs acc : list loc).

Lemma frame_refl out h : frame out h h.
Proof. by intros l c _ Hl. Qed.

Lemma frame_trans out h1 h2 h3 :
  frame out h1 h2 -> frame out h2 h3 -> frame out h1 h3.
Proof. intros H12 H23 l c Hne Hl. eauto. Qed.

Lemma items_at_spec h refs items :
  items_at h refs = Some items <->
  Forall2 (fun r it => h !! r = Some (CItem it)) refs items.
Proof.
  unfold items_at. rewrite mapM_Some. split; intros HF.
  - eapply Forall2_impl; [exact HF|]. intros r it. cbn.
    destruct (h !! r) as [[?|?]|]; naive_solver.
  - eapply Forall2_impl; [exact HF|]. intros r it ->. done.
Qed.

Lemma items_at_frame out h h' refs acc items :
  h !! out = Some (CList acc) -> frame out h h' ->
  items_at h refs = Some items -> items_at h' refs = Some items.
Proof.
  intros Hout Hfr. rewrite !items_at_spec. intros HF.
  eapply Forall2_impl; [exact HF|]. intros r it Hr. cbn in *.
  apply Hfr; [|done]. intros ->. congruence.
Qed.

Lemma items_at_app h refs acc items items' :
  items_at h refs = Some items -> items_at h acc = Some items' ->
  items_at h (refs ++ acc) = Some (items ++ items').
Proof. rewrite !items_at_spec. apply Forall2_app. Qed.

Lemma read_items_spec h refs items :
  items_at h refs = Some items -> read_items refs h = Some (items, h).
Proof.
  rewrite items_at_spec. induction 1 as [|r it refs items Hr _ IH]; [done|].
  cbn. unfold mbind, M_bind, read_item. rewrite Hr. cbn. by rewrite IH.
Qed.

End store.

(** ** Flattening *)

Section flattening.
Implicit Types (h : heap) (l r out : loc) (refs acc new : list loc).

Lemma copy_append_spec h out acc r it :
  h !! out = Some (CList acc) -> h !! r = Some (CItem it) ->
  exists h' c,
    (deepcopy r ≫= list_append out) h = Some (tt, h') /\
    h' !! out = Some (CList (acc ++ [c])) /\
    frame out h h' /\ (c ∉ dom h) /\ h' !! c = Some (CItem it).
Proof.
  intros Hout Hr. set (c := fresh (dom h)).
  assert (Hc : c ∉ dom h) by apply is_fresh.
  assert (Hco : c ≠ out).
  { intros ->. apply Hc, elem_of_dom. eauto. }
  exists (<[out := CList (acc ++ [c])]> (<[c := CItem it]> h)), c.
  split; [|split; [|split; [|split]]].
  - unfold deepcopy, mbind, M_bind, read_item, alloc, list_append.
    rewrite Hr. cbn. fold c. rewrite lookup_insert_ne by done.
    by rewrite Hout.
  - apply lookup_insert_eq.
  - intros l c' Hl Hlc. rewrite lookup_insert_ne by done.
    rewrite lookup_insert_ne; [done|].
    intros ->. apply Hc, elem_of_dom. eauto.
  - done.
  - rewrite lookup_insert_ne by done. apply lookup_insert_eq.
Qed.

Lemma flatten_step_spec h out acc r it :
  h !! out = Some (CList acc) -> h !! r = Some (CItem it) ->
  exists h' new,
    flatten_step out r h = Some (tt, h') /\
    h' !! out = Some (CList (acc ++ new)) /\
    frame out h h' /\ Forall (fun c => c ∉ dom h) new /\
    items_at h' new = Some (if kept it then [it] else []).
Proof.
  intros Hout Hr.
  assert (Hstep : flatten_step out r h =
    if kept it then (deepcopy r ≫= list_append out) h else Some (tt, h)).
  { unfold flatten_step, mbind at 1, M_bind at 1, read_item, kept.
    rewrite Hr. by destruct (is_action it), (is_backtrack it). }
  rewrite Hstep. destruct (kept it).
  - destruct (copy_append_spec h out acc r it Hout Hr)
      as (h' & c & Hrun & Ho & Hfr & Hc & Hci).
    exists h', [c]. repeat split; try done.
    + by apply Forall_singleton.
    + apply items_at_spec. by repeat constructor.
  - exists h, []. rewrite app_nil_r. repeat split; try done.
    apply frame_refl.
Qed.

Lemma frame_dom out h h' acc :
  h' !! out = Some (CList acc) -> frame out h h' -> dom h ⊆ dom h'.
Proof.
  intros Ho Hfr l [c Hl]%elem_of_dom. apply elem_of_dom.
  destruct (decide (l = out)) as [->|Hne]; eauto.
Qed.

Lemma flatten_loop_spec refs : forall h out acc items,
  h !! out = Some (CList acc) -> items_at h refs = Some items ->
  exists h' new,
    for_each refs (flatten_step out) h = Some (tt, h') /\
    h' !! out = Some (CList (acc ++ new)) /\
    frame out h h' /\ Forall (fun c => c ∉ dom h) new /\
    items_at h' new = Some (filter (fun it => kept it) items).
Proof.
  induction refs as [|r refs IH]; intros h out acc items Hout Hit.
  - apply items_at_spec in Hit. inversion Hit; subst.
    exists h, []. rewrite app_nil_r. repeat split; try done.
    apply frame_refl.
  - apply items_at_spec in Hit. inversion Hit as [|? it ? its Hr Hrest]; subst.
    destruct (flatten_step_spec h out acc r it Hout Hr)
      as (h1 & new1 & Hrun1 & Ho1 & Hfr1 & Hnew1 & Hit1).
    assert (Hits1 : items_at h1 refs = Some its).
    { eapply items_at_frame; [exact Hout|exact Hfr1|]. by apply items_at_spec. }
    destruct (IH h1 out (acc ++ new1) its Ho1 Hits1)
      as (h2 & new2 & Hrun2 & Ho2 & Hfr2 & Hnew2 & Hit2).
    exists h2, (new1 ++ new2). split; [|split; [|split; [|split]]].
    + cbn. unfold mbind, M_bind. by rewrite Hrun1.
    + by rewrite app_assoc.
    + eapply frame_trans; eauto.
    + apply Forall_app. split; [done|].
      eapply Forall_impl; [exact Hnew2|]. intros c Hc Hin. apply Hc.
      eapply frame_dom; eauto.
    + rewrite filter_cons.
      replace (filter (fun it0 => kept it0) its) with ([] ++ filter (fun it0 => kept it0) its) by done.
      destruct (decide (kept it)) as [Hk|Hk].
      * apply Is_true_true in Hk. rewrite Hk in Hit1.
        change (it :: [] ++ filter (fun it0 => kept it0) its)
          with ([it] ++ filter (fun it0 => kept it0) its).
        apply items_at_app; [|done].
        eapply items_at_frame; [exact Ho1|exact Hfr2|done].
      * apply Is_true_false in Hk. rewrite Hk in Hit1.
        apply items_at_spec in Hit1. inversion Hit1; subst. done.
Qed.

End flattening.

Lemma filter_filter_impl {A} (P Q : A -> bool) (l : list A) :
  (forall x, P x -> Q x) ->
  filter (fun x => P x) (filter (fun x => Q x) l) = filter (fun x => P x) l.
Proof.
  intros HPQ. induction l as [|x l IH]; [done|].
  rewrite !(filter_cons _ x). destruct (decide (Q x)) as [HQ|HQ].
  - rewrite filter_cons. destruct (decide (P x)); by rewrite IH.
  - destruct (decide (P x)) as [HP|HP]; [|done]. by apply HPQ in HP.
Qed.

Lemma filter_bool_cons {A} (P : A -> bool) (x : A) (l : list A) :
  filter (fun y => P y) (x :: l) =
  if P x then x :: filter (fun y => P y) l else filter (fun y => P y) l.
Proof.
  rewrite filter_cons. destruct (decide (P x)) as [H|H]; destruct (P x); done.
Qed.

Lemma is_dict_kept it : is_dict it -> kept it.
Proof. by destruct it. Qed.

Lemma is_forward_action_kept it : is_forward_action it -> kept it.
Proof.
  unfold is_forward_action, kept, is_backtrack.
  destruct (is_action it); [|done]. cbn.
  intros Hf%bool_decide_unpack. rewrite Hf. done.
Qed.

(** What a run of [try_flattening] returns and does to the store. *)
Lemma try_flattening_run (h : heap) (trajectory : loc)
    (refs : list loc) (items : list item) :
  h !! trajectory = Some (CList refs) ->
  items_at h refs = Some items ->
  exists (h' : heap) (flattened : loc) (out_refs : list loc),
    try_flattening trajectory h =
      Some ((flattened, has_state_action_pair (filter (fun it => kept it) items)), h') /\
    h' !! flattened = Some (CList out_refs) /\
    items_at h' out_refs = Some (filter (fun it => kept it) items) /\
    (flattened ∉ dom h) /\ Forall (fun c => c ∉ dom h) out_refs /\
    h ⊆ h'.
Proof.
  intros Ht Hit.
  set (out := fresh (dom h)).
  assert (Hout : out ∉ dom h) by apply is_fresh.
  set (h1 := <[out := CList []]> h).
  assert (Hto : trajectory ≠ out).
  { intros ->. apply Hout, elem_of_dom. eauto. }
  assert (Hfr0 : frame out h h1).
  { intros l c Hl Hlc. unfold h1. by rewrite lookup_insert_ne. }
  assert (Ho1 : h1 !! out = Some (CList [])) by apply lookup_insert_eq.
  assert (Hh : forall l c, h !! l = Some c -> l ≠ out).
  { intros l c Hl ->. apply Hout, elem_of_dom. eauto. }
  assert (Hit1 : items_at h1 refs = Some items).
  { revert Hit. rewrite !items_at_spec. intros HF.
    eapply Forall2_impl; [exact HF|]. intros r it Hr. cbn in *. eauto. }
  destruct (flatten_loop_spec refs h1 out [] items Ho1 Hit1)
    as (h' & new & Hrun & Ho & Hfr & Hnew & Hitn).
  cbn in Ho.
  exists h', out, new. split; [|split; [|split; [|split; [|split]]]].
  - unfold try_flattening, mbind, M_bind, alloc, read_list. cbn.
    fold out. fold h1. rewrite (Hfr0 _ _ Hto Ht). rewrite Hrun, Ho.
    by rewrite (read_items_spec _ _ _ Hitn).
  - done.
  - done.
  - done.
  - eapply Forall_impl; [exact Hnew|]. intros c Hc Hin. apply Hc.
    unfold h1. rewrite dom_insert_L. set_solver.
  - apply map_subseteq_spec. intros l c Hl. apply Hfr; eauto.
Qed.

(** C1. For every trajectory (a list object of the store whose elements
    are items), [try_flattening] returns a list that holds no action
    classified [backtrack], that consists of the items of the input
    other than its backtracking actions in their original order (so that
    every state and every forward action is retained, in order), and that
    is no longer than the input; the result is a fresh list of fresh
    copies, and every object of the input store, the input list among
    them, is unchanged. *)
Theorem try_flattening_correct (h : heap) (trajectory : loc)
    (refs : list loc) (items : list item) :
  h !! trajectory = Some (CList refs) ->
  items_at h refs = Some items ->
  exists (h' : heap) (flattened : loc) (out_refs : list loc)
         (out_items : list item) (valid : bool),
    try_flattening trajectory h = Some ((flattened, valid), h') /\
    h' !! flattened = Some (CList out_refs) /\
    items_at h' out_refs = Some out_items /\
    Forall (fun it => is_action it -> ¬ is_backtrack it) out_items /\
    out_items = filter (fun it => kept it) items /\
    filter (fun it => is_dict it) out_items = filter (fun it => is_dict it) items /\
    filter (fun it => is_forward_action it) out_items =
      filter (fun it => is_forward_action it) items /\
    sublist out_items items /\
    length out_refs <= length refs /\
    (flattened ∉ dom h) /\ Forall (fun c => c ∉ dom h) out_refs /\
    h ⊆ h' /\ h' !! trajectory = Some (CList refs) /\
    items_at h' refs = Some items.
Proof.
  intros Ht Hit.
  destruct (try_flattening_run h trajectory refs items Ht Hit)
    as (h' & out & new & Hrun & Ho & Hitn & Hout & Hnew & Hsub).
  exists h', out, new, (filter (fun it => kept it) items),
    (has_state_action_pair (filter (fun it => kept it) items)).
  assert (Hlen : length new = length (filter (fun it => kept it) items)).
  { apply items_at_spec in Hitn. by eapply Forall2_length. }
  assert (Hlen' : length refs = length items).
  { apply items_at_spec in Hit. by eapply Forall2_length. }
  split; [done|]. split; [done|]. split; [done|].
  split; [|split; [done|split; [|split; [|split; [|split; [|split;
    [done|split; [done|split; [done|split]]]]]]]]].
  - apply Forall_forall. intros it [Hk _]%list_elem_of_filter Ha Hb.
    cbn in Hk. unfold kept in Hk. apply Is_true_true in Ha, Hb.
    by rewrite Ha, Hb in Hk.
  - apply filter_filter_impl, is_dict_kept.
  - apply filter_filter_impl, is_forward_action_kept.
  - apply sublist_filter.
  - rewrite Hlen, Hlen'. apply length_filter.
  - eapply lookup_weaken; eauto.
  - revert Hit. rewrite !items_at_spec. intros HF.
    eapply Forall2_impl; [exact HF|]. intros r it Hr. cbn in *.
    eapply lookup_weaken; eauto.
Qed.

Lemma try_flattening_correct_witness :
  exists (h' : heap) (flattened : loc) (valid : bool),
    try_flattening 8%positive sample_heap = Some ((flattened, valid), h') /\
    sample_heap ⊆ h'.
Proof.
  destruct (try_flattening_correct sample_heap 8%positive sample_refs sample_items)
    as (h' & fl & out_refs & out_items & valid & Hrun & H).
  - reflexivity.
  - reflexivity.
  - exists h', fl, valid. split; [exact Hrun|]. apply H.
Defined.

(** C5. On a seven-item trajectory [State, Action(forward), State,
    Action(backtrack), State, Action(forward), State], [try_flattening]
    removes the middle action and nothing else; what is left are the four
    states and the two forward actions, six items. *)
Theorem try_flattening_seven (h : heap) (trajectory : loc)
    (r1 r2 r3 r4 r5 r6 r7 : loc) (s1 a1 s2 a2 s3 a3 s4 : item) :
  h !! trajectory = Some (CList [r1; r2; r3; r4; r5; r6; r7]) ->
  items_at h [r1; r2; r3; r4; r5; r6; r7] = Some [s1; a1; s2; a2; s3; a3; s4] ->
  is_dict s1 -> is_dict s2 -> is_dict s3 -> is_dict s4 ->
  is_action a1 -> get_direction_info a1 = ("forward" : str) ->
  is_action a2 -> get_direction_info a2 = ("backtrack" : str) ->
  is_action a3 -> get_direction_info a3 = ("forward" : str) ->
  exists (h' : heap) (flattened : loc) (out_refs : list loc) (valid : bool),
    try_flattening trajectory h = Some ((flattened, valid), h') /\
    h' !! flattened = Some (CList out_refs) /\
    items_at h' out_refs = Some [s1; a1; s2; s3; a3; s4] /\
    length out_refs = 6.
Proof.
  intros Ht Hit Hs1 Hs2 Hs3 Hs4 Ha1 Hd1 Ha2 Hd2 Ha3 Hd3.
  destruct (try_flattening_run h trajectory _ _ Ht Hit)
    as (h' & out & new & Hrun & Ho & Hitn & _).
  assert (Hf : filter (fun it => kept it) [s1; a1; s2; a2; s3; a3; s4]
               = [s1; a1; s2; s3; a3; s4]).
  { assert (Hk : forall s, is_dict s -> kept s = true).
    { intros s Hs. apply Is_true_true. by apply is_dict_kept. }
    assert (Hkf : forall a, get_direction_info a = ("forward" : str) -> kept a = true).
    { intros a Ha. unfold kept, is_backtrack. rewrite Ha. by destruct (is_action a). }
    assert (Hkb : kept a2 = false).
    { unfold kept, is_backtrack. rewrite Hd2. apply Is_true_true in Ha2.
      by rewrite Ha2. }
    rewrite !filter_bool_cons, filter_nil.
    by rewrite (Hk s1), (Hkf a1), (Hk s2), Hkb, (Hk s3), (Hkf a3), (Hk s4). }
  rewrite Hf in Hrun, Hitn.
  exists h', out, new, (has_state_action_pair [s1; a1; s2; s3; a3; s4]).
  repeat split; try done.
  apply items_at_spec in Hitn. by apply Forall2_length in Hitn.
Qed.

Lemma try_flattening_seven_witness :
  exists (h' : heap) (flattened : loc) (out_refs : list loc) (valid : bool),
    try_flattening 8%positive sample_heap = Some ((flattened, valid), h') /\
    h' !! flattened = Some (CList out_refs) /\
    length out_refs = 6.
Proof.
  destruct (try_flattening_seven sample_heap 8%positive
              1%positive 2%positive 3%positive 4%positive 5%positive
              6%positive 7%positive
              (sample_state "http://gitlab/a") (sample_action "click [12]")
              (sample_state "http://gitlab/b")
              (sample_action "We should take a step back")
              (sample_state "http://gitlab/a") (sample_action "click [14]")
              (sample_state "http://gitlab/c"))
    as (h' & fl & out_refs & valid & Hrun & Ho & _ & Hlen);
    try reflexivity; try exact I.
  exists h', fl, out_refs, valid. auto.
Defined.

(** C5, as the specification states it (a flattened length of 5), fails on
    the sample trajectory: its flattened form has six items. *)
Lemma try_flattening_seven_not_five :
  exists (h' : heap) (flattened : loc) (out_refs : list loc) (valid : bool),
    try_flattening 8%positive sample_heap = Some ((flattened, valid), h') /\
    h' !! flattened = Some (CList out_refs) /\
    is_dict <$> sample_items = [true; false; true; false; true; false; true] /\
    get_direction_info <$> filter (fun it => is_action it) sample_items
      = [("forward" : str); ("backtrack" : str); ("forward" : str)] /\
    length out_refs = 6 /\ length out_refs <> 5.
Proof.
  eexists _, _, _, _. split; [vm_compute; reflexivity|].
  split; [vm_compute; reflexivity|].
  split; [reflexivity|]. split; [reflexivity|]. split; [reflexivity|]. discriminate.
Qed.

(** ** Substring search *)

Lemma startswith_spec (p s : str) :
  Py.startswith p s = true <-> exists post, s = p ++ post.
Proof.
  revert s. induction p as [|a p IH]; intros s; cbn.
  - split; eauto.
  - destruct s as [|b s]; cbn.
    + split; [done|]. by intros [post ?].
    + rewrite andb_true_iff, bool_decide_eq_true, IH. split.
      * intros [-> [post ->]]. eauto.
      * intros [post [= -> ->]]. eauto.
Qed.

Lemma str_in_spec (sub s : str) :
  Py.str_in sub s = true <-> occurs_in sub s.
Proof.
  unfold occurs_in. induction s as [|b s IH]; cbn.
  - rewrite orb_false_r, startswith_spec. split.
    + intros [post Hp]. by exists [], post.
    + intros (pre & post & H). symmetry in H.
      apply app_eq_nil in H as [-> H]. exists post. by symmetry.
  - rewrite orb_true_iff, IH, startswith_spec. split.
    + intros [[post Hp]|(pre & post & ->)].
      * by exists [], post.
      * by exists (b :: pre), post.
    + intros (pre & post & H). destruct pre as [|c pre]; cbn in H.
      * left. eauto.
      * right. injection H as -> ->. eauto.
Qed.

(** Search in the lower-cased text finds the runs of the text that
    lower-case to the needle. *)
Lemma occurs_in_lower (sub s : str) :
  occurs_in sub (Py.lower s) <->
  exists pre x post : str, s = pre ++ x ++ post /\ Py.lower x = sub.
Proof.
  unfold occurs_in, Py.lower. split.
  - intros (pre & post & H).
    apply fmap_app_inv in H as (l1 & l2 & -> & H & ->). symmetry in H.
    apply fmap_app_inv in H as (x & l3 & -> & -> & ->). eauto.
  - intros (pre & x & post & -> & <-).
    exists (Py.lower_char <$> pre), (Py.lower_char <$> post).
    by rewrite !fmap_app.
Qed.

(** C4. [get_direction_info] returns the explicit direction attribute
    when there is one. Without it the answer is [backtrack] exactly when
    the rationale contains the backtrack phrase as written, capital
    letter included, or contains a run of characters that lower-cases to
    the go-back token; in every other case the answer is [forward]. *)
Theorem get_direction_info_spec (it : item) :
  (forall d, attr_direction it = Some d -> get_direction_info it = d) /\
  (attr_direction it = None ->
     (get_direction_info it = ("backtrack" : str) <->
        exists raw, attr_raw_prediction it = Some raw /\
          (occurs_in BACKTRACK_KWD raw \/
           exists pre x post : str,
             raw = pre ++ x ++ post /\ Py.lower x = GO_BACK_KWD)) /\
     (get_direction_info it <> ("backtrack" : str) ->
        get_direction_info it = ("forward" : str))).
Proof.
  unfold get_direction_info. split.
  - by intros d ->.
  - intros ->. destruct (attr_raw_prediction it) as [raw|].
    + destruct (Py.str_in BACKTRACK_KWD raw || Py.str_in GO_BACK_KWD (Py.lower raw))
        eqn:E.
      * split; [|done]. split; [intros _|done]. exists raw. split; [done|].
        apply orb_true_iff in E as [E|E].
        -- left. by apply str_in_spec.
        -- right. by apply occurs_in_lower, str_in_spec.
      * split; [|done]. split; [done|]. intros (raw' & [= <-] & H).
        apply orb_false_iff in E as [E1 E2].
        destruct H as [H|H].
        -- apply str_in_spec in H. congruence.
        -- apply occurs_in_lower, str_in_spec in H. congruence.
    + split; [|done]. split; [done|]. by intros (raw & ? & _).
Qed.

Lemma get_direction_info_spec_witness :
  get_direction_info (sample_action "I will GO_BACK to the list") = ("backtrack" : str).
Proof.
  apply (get_direction_info_spec (sample_action "I will GO_BACK to the list")).
  - reflexivity.
  - exists ("I will GO_BACK to the list" : str). split; [reflexivity|].
    right. exists ("I will " : str), ("GO_BACK" : str), (" to the list" : str).
    split; reflexivity.
Defined.

(** C4, as the specification states it (the backtrack phrase matched
    without regard to letter case), fails: the phrase in lower case is
    classified [forward]. *)
Lemma get_direction_info_case_sensitive :
  attr_direction lowercase_phrase_action = None /\
  contains_ignoring_case BACKTRACK_KWD ("we should take a step back" : str) = true /\
  spec_direction lowercase_phrase_action = ("backtrack" : str) /\
  get_direction_info lowercase_phrase_action = ("forward" : str) /\
  get_direction_info lowercase_phrase_action <> spec_direction lowercase_phrase_action.
Proof.
  split; [reflexivity|]. split; [reflexivity|]. split; [reflexivity|].
  split; [reflexivity|]. discriminate.
Qed.

(** ** The quality gate *)

Lemma existsb_seq (f : nat -> bool) (a n : nat) :
  existsb f (seq a n) = true <-> exists i, a <= i < a + n /\ f i = true.
Proof.
  rewrite existsb_exists. split.
  - intros (i & Hi%in_seq & Hf). eauto.
  - intros (i & Hi & Hf). exists i. split; [by apply in_seq|done].
Qed.

Lemma strip_is_empty_spec (s : str) :
  Py.strip_is_empty s = true <-> Forall (fun c => Py.is_space c) s.
Proof.
  unfold Py.strip_is_empty. rewrite forallb_forall, Forall_forall.
  split; intros H c Hc.
  - apply Is_true_true, H. by apply list_elem_of_In.
  - apply Is_true_true, H. by apply list_elem_of_In.
Qed.

Lemma _check_error_messages_spec (s : str) :
  _check_error_messages s = true <->
  exists kw, kw ∈ error_keywords /\ occurs_in kw (Py.lower s).
Proof.
  unfold _check_error_messages. rewrite existsb_exists. split.
  - intros (kw & Hin & Hkw). exists kw.
    split; [by apply list_elem_of_In|by apply str_in_spec].
  - intros (kw & Hin & Hkw). exists kw.
    split; [by apply list_elem_of_In|by apply str_in_spec].
Qed.

Lemma _filter_messages_iff (messages : list message) (strict_mode : bool) :
  _filter_messages messages strict_mode = true <-> rejected messages.
Proof.
  unfold _filter_messages, rejected. cbv zeta.
  destruct (bool_decide (messages = []) || (length messages <? 3)) eqn:Elen.
  { split; [intros _|done]. left.
    apply orb_true_iff in Elen as [E|E].
    - apply bool_decide_eq_true in E. subst. cbn. lia.
    - by apply Nat.ltb_lt in E. }
  apply orb_false_iff in Elen as [_ Elen]. apply Nat.ltb_ge in Elen.
  assert (Hlast : last messages = Some (messages !!! (length messages - 1))).
  { rewrite last_lookup, <- Nat.sub_1_r.
    apply list_lookup_lookup_total_lt. lia. }
  destruct (existsb _ _) eqn:Ealt.
  { split; [intros _|done]. right. left.
    apply existsb_seq in Ealt as (i & Hi & E). apply bool_decide_eq_true in E.
    exists i, (messages !!! i), (messages !!! (i + 1)).
    split; [lia|]. split; [|split; [|done]];
      apply list_lookup_lookup_total_lt; lia. }
  assert (Hnoalt : ~ exists i a b, 1 <= i /\ messages !! i = Some a /\
                     messages !! (i + 1) = Some b /\ role a = role b).
  { intros (i & a & b & Hi & Ha & Hb & Hab).
    apply not_true_iff_false in Ealt. apply Ealt, existsb_seq.
    exists i. apply lookup_lt_Some in Hb as Hlt. split; [lia|].
    apply bool_decide_eq_true.
    by rewrite (list_lookup_total_correct _ _ _ Ha),
               (list_lookup_total_correct _ _ _ Hb). }
  set (lm := messages !!! (length messages - 1)) in *.
  assert (Hlm : forall P : message -> Prop,
            (exists lm', last messages = Some lm' /\ P lm') <-> P lm).
  { intros P. rewrite Hlast. split; [by intros (? & [= <-] & ?)|eauto]. }
  destruct (bool_decide (role lm = ("assistant" : str))) eqn:Erole; cbn [negb].
  2: { apply bool_decide_eq_false in Erole.
       split; [intros _|done]. right. right. apply Hlm. by left. }
  apply bool_decide_eq_true in Erole.
  destruct (bool_decide (content lm = []) || Py.strip_is_empty (content lm)) eqn:Eempty.
  { split; [intros _|done]. right. right. apply Hlm. right. left.
    apply orb_true_iff in Eempty as [E|E].
    - apply bool_decide_eq_true in E. rewrite E. apply Forall_nil_2.
    - by apply strip_is_empty_spec. }
  apply orb_false_iff in Eempty as [_ Eempty].
  destruct (_check_error_messages (content lm)) eqn:Eerr.
  { split; [intros _|done]. right. right. apply Hlm. right. right. left.
    by apply _check_error_messages_spec. }
  destruct (Py.str_in ("go_back" : str) (Py.lower (content lm))
            || Py.str_in ("take a step back" : str) (Py.lower (content lm))) eqn:Eback.
  { split; [intros _|done]. right. right. apply Hlm. right. right. right.
    apply orb_true_iff in Eback as [E|E]; [left|right]; by apply str_in_spec. }
  split; [done|]. intros [H|[H|H]]; [lia|done|].
  apply Hlm in H as [H|[H|[H|H]]].
  - done.
  - apply strip_is_empty_spec in H. congruence.
  - apply _check_error_messages_spec in H. congruence.
  - apply orb_false_iff in Eback as [E1 E2].
    destruct H as [H|H]; apply str_in_spec in H; congruence.
Qed.

(** C2. [_filter_messages] filters a turn list out exactly when it has
    fewer than 3 turns, or two consecutive turns from the second turn on
    share a role (the first turn, the system turn, is not compared with
    its successor), or the final turn's role is not [assistant], or the
    final content is empty or whitespace, or an error keyword occurs in
    the lower-cased final content, or a backtracking phrase occurs in it,
    whatever the [strict_mode] argument; every other list is accepted. A
    list whose final assistant content is "element not found" is filtered
    out. *)
Theorem _filter_messages_policy (messages : list message) (strict_mode : bool) :
  (_filter_messages messages strict_mode = true <-> rejected messages) /\
  (_filter_messages messages strict_mode = false <-> ~ rejected messages) /\
  _filter_messages (messages ++ [assistant_msg "element not found"]) strict_mode = true.
Proof.
  split; [apply _filter_messages_iff|]. split.
  - rewrite <- (_filter_messages_iff messages strict_mode).
    by destruct (_filter_messages _ _).
  - apply _filter_messages_iff. right. right.
    exists (assistant_msg "element not found"). split; [apply last_snoc|].
    right. right. left. exists ("element not found" : str). split.
    + unfold error_keywords. set_solver.
    + by exists [], [].
Qed.

Lemma _filter_messages_policy_witness :
  _filter_messages go_back_turns false = true.
Proof.
  apply (proj2 (proj1 (_filter_messages_policy go_back_turns false))).
  right. right. exists (assistant_msg "go_back"). split; [reflexivity|].
  right. right. right. left. by exists [], [].
Defined.

(** C2, as the specification states it, fails in two ways: two leading
    turns of one role are accepted, and a backtracking phrase is rejected
    with strict mode off. *)
Lemma _filter_messages_not_spec_reject :
  (spec_reject two_user_turns true = true /\
   _filter_messages two_user_turns true = false) /\
  (spec_reject go_back_turns false = false /\
   _filter_messages go_back_turns false = true).
Proof. repeat split; reflexivity. Qed.

(** C9. The result of [_filter_messages] does not depend on
    [strict_mode], and a backtracking phrase in the final content filters
    the list out whatever [strict_mode] is. *)
Theorem _filter_messages_strict_mode_irrelevant (messages : list message) :
  _filter_messages messages true = _filter_messages messages false /\
  forall (strict_mode : bool) (lm : message),
    last messages = Some lm ->
    has_backtrack_phrase (content lm) ->
    _filter_messages messages strict_mode = true.
Proof.
  split; [reflexivity|]. intros strict_mode lm Hlast Hback.
  apply _filter_messages_iff. right. right. exists lm. auto.
Qed.

Lemma _filter_messages_strict_mode_irrelevant_witness :
  _filter_messages go_back_turns false = true.
Proof.
  apply (_filter_messages_strict_mode_irrelevant go_back_turns)
    with (lm := assistant_msg "go_back").
  - reflexivity.
  - left. by exists [], [].
Defined.

(** A final content of one no-break space is whitespace to [str.strip]:
    the list is filtered out. *)
Example _filter_messages_no_break_space :
  _filter_messages
    [sys_msg; user_msg "Current webpage: a"; Message ("assistant" : str) [ascii_of_N 160]]
    false = true.
Proof. reflexivity. Qed.

(** ** The token-budget trimmer *)

Section trimmer.
Variable tok : option tokenizer.

(** Tokens of one turn. *)
Let T (m : message) : Z := count_tokens (content m) tok.

Lemma count_tokens_nonneg (text : str) : (0 <= count_tokens text tok)%Z.
Proof.
  unfold count_tokens. destruct tok; [lia|].
  apply Z.div_pos; lia.
Qed.

Lemma sum_app (l k : list Z) : sum (l ++ k) = (sum l + sum k)%Z.
Proof. induction l as [|x l IH]; cbn; [done|]. rewrite IH. lia. Qed.

Lemma sum_reverse (l : list Z) : sum (reverse l) = sum l.
Proof.
  induction l as [|x l IH]; [done|].
  rewrite reverse_cons, sum_app, IH. cbn. lia.
Qed.

Lemma sum_tokens_nonneg (l : list message) : (0 <= sum (T <$> l))%Z.
Proof.
  induction l as [|m l IH]; cbn; [lia|].
  pose proof (count_tokens_nonneg (content m)). unfold T at 1. lia.
Qed.

Lemma zip_with_tokens (l : list message) :
  zip l (T <$> l) = (fun m => (m, T m)) <$> l.
Proof. induction l as [|m l IH]; cbn; [done|]. by rewrite IH. Qed.

Lemma middle_1_n_fmap (n : nat) (l : list message) :
  middle_1_n n (T <$> l) = T <$> middle_1_n n l.
Proof. unfold middle_1_n. by rewrite fmap_drop, fmap_take, length_fmap. Qed.

Lemma last_n_fmap (n : nat) (l : list message) :
  last_n n (T <$> l) = T <$> last_n n l.
Proof. unfold last_n. by rewrite fmap_drop, length_fmap. Qed.

(** The loop takes a prefix of the middle turns, as long as each fits
    in what is left of the budget, and leaves them behind the first
    kept turn in reverse order. *)
Lemma reinsert_loop_spec (middle : list message) :
  forall (first : message) (rest : list message) (remaining : Z),
  exists n : nat,
    (n <= length middle) /\
    reinsert_loop ((fun m => (m, T m)) <$> middle) (first :: rest) remaining =
      (first :: reverse (take n middle) ++ rest,
       (remaining - sum (T <$> take n middle))%Z) /\
    ((0 <= remaining)%Z -> (0 <= remaining - sum (T <$> take n middle))%Z) /\
    ((remaining < 0)%Z -> n = 0) /\
    (forall m, middle !! n = Some m ->
       (remaining - sum (T <$> take n middle) < T m)%Z).
Proof.
  induction middle as [|m middle IH]; intros first rest remaining.
  - exists 0. cbn. repeat split; try done; try lia.
    f_equal. lia.
  - cbn [fmap list_fmap reinsert_loop].
    pose proof (count_tokens_nonneg (content m)) as Hm. fold (T m) in Hm.
    destruct (T m <=? remaining)%Z eqn:E.
    + apply Z.leb_le in E.
      destruct (IH first (m :: rest) (remaining - T m)%Z)
        as (n & Hn & Hrun & Hpos & Hneg & Hstop).
      exists (S n). cbn [take length fmap list_fmap sum].
      split; [lia|]. split; [|split; [|split]].
      * unfold py_insert. cbn [take drop app].
        change (take 0 rest ++ m :: drop 0 rest) with (m :: rest). rewrite Hrun.
        rewrite reverse_cons, <- app_assoc. cbn. f_equal. lia.
      * intros _. specialize (Hpos ltac:(lia)). lia.
      * lia.
      * intros m' Hm'. cbn in Hm'. specialize (Hstop m' Hm'). lia.
    + apply Z.leb_gt in E. exists 0. cbn.
      split; [lia|]. split; [f_equal; lia|]. split; [lia|].
      split; [done|]. intros m' [= <-]. lia.
Qed.

Lemma total_tokens_eq (messages : list message) :
  total_tokens messages tok = sum (T <$> messages).
Proof. done. Qed.

Lemma check_context_size_within (messages : list message) (max_tokens : Z) :
  (total_tokens messages tok <= max_tokens)%Z ->
  check_context_size messages tok max_tokens = (messages, total_tokens messages tok).
Proof.
  intros Hle. unfold check_context_size. case_bool_decide as Hnil.
  - by subst.
  - cbv zeta. fold (total_tokens messages tok).
    apply Z.leb_le in Hle. by rewrite Hle.
Qed.

Lemma check_context_size_short (messages : list message) (max_tokens : Z) :
  length messages <= 7 ->
  check_context_size messages tok max_tokens = (messages, total_tokens messages tok).
Proof.
  intros Hlen. unfold check_context_size. case_bool_decide as Hnil.
  - by subst.
  - cbv zeta. fold (total_tokens messages tok).
    destruct (_ <=? max_tokens)%Z; [done|].
    apply Nat.leb_le in Hlen. by rewrite Hlen.
Qed.

(** The trimming branch: the first turn, then a prefix of the middle
    turns in reverse order, then the last six turns. *)
Lemma check_context_size_trim (messages : list message) (max_tokens : Z) :
  (max_tokens < total_tokens messages tok)%Z ->
  7 < length messages ->
  exists n : nat,
    let middle := middle_1_n 6 messages in
    let out := messages !!! 0 :: reverse (take n middle) ++ last_n 6 messages in
    (n <= length middle) /\
    check_context_size messages tok max_tokens = (out, total_tokens out tok) /\
    ((total_tokens out tok <= max_tokens)%Z \/ n = 0) /\
    (forall m, middle !! n = Some m ->
       (max_tokens < total_tokens out tok + T m)%Z).
Proof.
  intros Hgt Hlen. cbv zeta.
  set (middle := middle_1_n 6 messages).
  set (kept_tokens := (T (messages !!! 0%nat) + sum (T <$> last_n 6 messages))%Z).
  destruct (reinsert_loop_spec middle (messages !!! 0) (last_n 6 messages)
              (max_tokens - kept_tokens)%Z)
    as (n & Hn & Hrun & Hpos & Hneg & Hstop).
  exists n.
  assert (Htot : total_tokens (messages !!! 0 :: reverse (take n middle)
                                 ++ last_n 6 messages) tok
                 = (kept_tokens + sum (T <$> take n middle))%Z).
  { rewrite total_tokens_eq. cbn [fmap list_fmap sum].
    rewrite fmap_app, sum_app, fmap_reverse, sum_reverse.
    unfold kept_tokens. lia. }
  rewrite Htot. split; [done|]. split; [|split].
  - unfold check_context_size. case_bool_decide as Hnil.
    { subst. cbn in Hlen. lia. }
    cbv zeta. fold (total_tokens messages tok). fold T.
    apply Z.ltb_lt in Hgt as Hgt'. rewrite Z.ltb_antisym in Hgt'.
    apply negb_true_iff in Hgt'. rewrite Hgt'.
    assert (Hlen' : (length messages <=? 7) = false) by (apply Nat.leb_gt; lia).
    rewrite Hlen'.
    rewrite middle_1_n_fmap, last_n_fmap, zip_with_tokens.
    rewrite (list_lookup_total_fmap T messages 0) by lia.
    fold middle. fold kept_tokens. cbn [app]. rewrite Hrun.
    f_equal. lia.
  - destruct (decide (0 <= max_tokens - kept_tokens)%Z) as [H|H].
    + left. specialize (Hpos H). lia.
    + right. apply Hneg. lia.
  - intros m Hm. specialize (Hstop m Hm). lia.
Qed.

End trimmer.

(** C3. On ten one-token turns and a budget of nine tokens,
    [check_context_size] keeps the first turn and the last six and
    re-inserts the first two middle turns, each directly behind the first
    turn: they come out in the opposite order, the assistant turn
    [ast2] before the user turn [usr1] it answered. *)
Theorem check_context_size_reverses_middle :
  total_tokens ten_turns None = 10%Z /\
  middle_1_n 6 ten_turns = [user_msg "usr1"; assistant_msg "ast2"; user_msg "usr3"] /\
  check_context_size ten_turns None 9 =
    ([ Message ("system" : str) ("sys0" : str);
       assistant_msg "ast2"; user_msg "usr1";
       assistant_msg "ast4"; user_msg "usr5"; assistant_msg "ast6";
       user_msg "usr7"; assistant_msg "ast8"; user_msg "usr9" ], 9%Z).
Proof. repeat split; reflexivity. Qed.

(** C6. A turn list within the budget is returned unchanged, with its
    token total; and trimming is idempotent on every turn list: trimming
    the result of a trim changes nothing, neither the list nor the
    count. *)
Theorem check_context_size_idempotent
    (messages : list message) (tok : option tokenizer) (max_tokens : Z) :
  ((total_tokens messages tok <= max_tokens)%Z ->
     check_context_size messages tok max_tokens
       = (messages, total_tokens messages tok)) /\
  check_context_size (check_context_size messages tok max_tokens).1 tok max_tokens
    = check_context_size messages tok max_tokens.
Proof.
  split; [apply check_context_size_within|].
  destruct (decide (total_tokens messages tok <= max_tokens)%Z) as [Hle|Hgt].
  { rewrite (check_context_size_within _ _ _ Hle). cbn [fst].
    by apply check_context_size_within. }
  destruct (decide (length messages <= 7)) as [Hlen|Hlen].
  { rewrite (check_context_size_short _ _ max_tokens Hlen). cbn [fst].
    by apply check_context_size_short. }
  destruct (check_context_size_trim tok messages max_tokens)
    as (n & _ & Hrun & [Hfit | ->] & _); [lia|lia| |].
  - rewrite Hrun. cbn [fst]. by apply check_context_size_within.
  - rewrite Hrun. cbn [fst]. apply check_context_size_short.
    rewrite take_0. change (reverse []) with (@nil message).
    cbn [app length]. unfold last_n. rewrite length_drop. lia.
Qed.

Lemma check_context_size_idempotent_witness :
  check_context_size go_back_turns None 100 =
    (go_back_turns, total_tokens go_back_turns None).
Proof.
  apply (proj1 (check_context_size_idempotent go_back_turns None 100)).
  vm_compute. discriminate.
Defined.

(** C10. A turn list of at most 7 turns is returned unchanged with its
    token total, over budget or not; so the result of the trimmer can
    exceed the budget. *)
Theorem check_context_size_at_most_seven
    (messages : list message) (tok : option tokenizer) (max_tokens : Z) :
  (length messages <= 7 ->
     check_context_size messages tok max_tokens
       = (messages, total_tokens messages tok)) /\
  (length go_back_turns <= 7 /\
   (5 < total_tokens go_back_turns None)%Z /\
   check_context_size go_back_turns None 5 = (go_back_turns, 15%Z)).
Proof.
  split; [apply check_context_size_short|].
  split; [cbn; lia|]. split; [vm_compute; reflexivity|]. reflexivity.
Qed.

Lemma check_context_size_at_most_seven_witness :
  check_context_size go_back_turns None 5 =
    (go_back_turns, total_tokens go_back_turns None).
Proof.
  apply (proj1 (check_context_size_at_most_seven go_back_turns None 5)).
  cbn. lia.
Defined.

(** ** The success reducers *)

(** [analyze_performance_files] never looks at the key [scores]. *)
Lemma performance_is_success_ignores_scores (data : gmap string json) (v : json) :
  performance_is_success (<["scores"%string := v]> data) = performance_is_success data.
Proof.
  unfold performance_is_success, probe.
  by rewrite !lookup_insert_ne by done.
Qed.

(** The reducer of [analyze_o4_mini_trajectories] on the two records:
    one success, one failure, 50 percent. *)
Lemma analyze_trajectories_two_files :
  exists r, analyze_trajectories two_trajectory_files = Some r /\
    total_trajectories r = 2 /\ successful_tasks r = 1 /\ failed_tasks r = 1 /\
    Qred (success_rate r) = 50%Q.
Proof. eexists. split; [reflexivity|]. repeat split. Qed.

(** C8. On the two performance records, [scores: 1.0] and no score field,
    [analyze_performance_files] counts both as failed, a success rate of
    0 percent: it reads the key [score], not [scores]. *)
Theorem analyze_performance_files_two_files :
  analyze_performance_files two_performance_files =
    Some ([], [0%Z; 1%Z],
          <[1%Z := ("FAILED" : str)]> (<[0%Z := ("FAILED" : str)]> ∅)) /\
  performance_is_success perf_with_scores = false /\
  Qred (success_percentage [] (<[1%Z := ("FAILED" : str)]> (<[0%Z := ("FAILED" : str)]> ∅)))
    = 0%Q.
Proof. repeat split; reflexivity. Qed.

(** ** The string functions on small inputs *)

Example sub_empty_matches :
  Re.sub (Rep 0 (fun c => bool_decide (c = "x"%char))) ("-" : str) ("axb" : str)
  = ("-a--b-" : str).
Proof. reflexivity. Qed.

Example replace_entities :
  replace ("&lt;" : str) ("<" : str) ("a &lt;b&lt; c" : str) = ("a <b< c" : str).
Proof. reflexivity. Qed.

Example split_lines :
  split ","%char ("a,b,,c," : str) = [("a" : str); ("b" : str); []; ("c" : str); []].
Proof. reflexivity. Qed.

Example _filter_train_data_small :
  _filter_train_data ("see  https://a.b/c?d  and www.x &lt;b&gt; http:// ok" : str)
  = ("see [URL] and [URL] <b> http:// ok" : str).
Proof. reflexivity. Qed.

Example redact_small :
  redact ("id 12345678901234567890, 1234567890123456789, joe.x@ex-ample.com, a@b.c" : str)
  = ("id [LONG_ID], 1234567890123456789, [EMAIL], a@b.c" : str).
Proof. reflexivity. Qed.

Example _check_error_messages_small :
  _check_error_messages ("Element Not Found on the page" : str) = true.
Proof. reflexivity. Qed.

(** ** Regular expressions: what a match consumes *)

Section regex_lengths.
Context {R : Type}.
Implicit Types (k : option ascii -> str -> option R) (s : str) (r : regex).

Lemma after_lit_length (p : str) prev s prev' s' :
  Re.after_lit p prev s = Some (prev', s') -> length s' + length p = length s.
Proof.
  revert prev s. induction p as [|a p IH]; intros prev s; cbn.
  - intros [= _ <-]. lia.
  - destruct s as [|b s]; [done|]. case_bool_decide; [|done].
    intros Hrec%IH. cbn. lia.
Qed.

Lemma rep_greedy_length (p : ascii -> bool) s : forall n prev k res,
  Re.rep_greedy p n prev s k = Some res ->
  exists prev' s', k prev' s' = Some res /\ length s' + n <= length s.
Proof.
  induction s as [|c s IH]; intros n prev k res; cbn.
  - destruct n; [|done]. intros H. exists prev, []. split; [done|]. cbn. lia.
  - assert (Hstop : match n with 0 => k prev (c :: s) | S _ => None end = Some res ->
              exists prev' s', k prev' s' = Some res /\ length s' + n <= S (length s)).
    { destruct n; [|done]. intros H. exists prev, (c :: s). split; [done|]. cbn. lia. }
    destruct (p c); [|done].
    destruct (Re.rep_greedy p (pred n) (Some c) s k) as [res'|] eqn:E; [|done].
    intros [= <-]. apply IH in E as (prev' & s' & Hk & Hlen).
    exists prev', s'. split; [done|]. lia.
Qed.

Lemma m_length r : forall prev s k res,
  Re.m r prev s k = Some res ->
  exists prev' s', k prev' s' = Some res /\ length s' + Re.min_length r <= length s.
Proof.
  induction r as [p|p|r1 IH1 r2 IH2|r1 IH1 r2 IH2|r1 IH1|n p|];
    intros prev s k res; cbn [Re.m Re.min_length].
  - destruct (Re.after_lit p prev s) as [[prev' s']|] eqn:E; [|done].
    intros H. exists prev', s'. split; [done|].
    apply after_lit_length in E. lia.
  - destruct s as [|c s]; [done|]. destruct (p c); [|done].
    intros H. exists (Some c), s. split; [done|]. cbn. lia.
  - intros (prev1 & s1 & H1 & Hl1)%IH1.
    apply IH2 in H1 as (prev2 & s2 & H2 & Hl2).
    exists prev2, s2. split; [done|]. lia.
  - destruct (Re.m r1 prev s k) as [res'|] eqn:E.
    + intros [= <-]. apply IH1 in E as (prev' & s' & Hk & Hl).
      exists prev', s'. split; [done|]. lia.
    + intros (prev' & s' & Hk & Hl)%IH2.
      exists prev', s'. split; [done|]. lia.
  - destruct (Re.m r1 prev s k) as [res'|] eqn:E.
    + intros [= <-]. apply IH1 in E as (prev' & s' & Hk & Hl).
      exists prev', s'. split; [done|]. lia.
    + intros H. exists prev, s. split; [done|]. lia.
  - apply rep_greedy_length.
  - destruct (xorb _ _); [|done]. intros H. exists prev, s. split; [done|]. lia.
Qed.

End regex_lengths.

Lemma match_at_length (r : regex) (prev : option ascii) (s rest : str) :
  Re.match_at r prev s = Some rest ->
  length rest + Re.min_length r <= length s.
Proof.
  unfold Re.match_at. intros (prev' & s' & [= ->] & Hl)%m_length. done.
Qed.

(** A substitution whose replacement is no longer than the shortest
    match does not lengthen the text. *)
Lemma sub_go_length (r : regex) (repl : str) (s : str) : forall prev skip,
  1 <= Re.min_length r -> length repl <= Re.min_length r ->
  length (Re.sub_go r repl prev s skip) <= length s - skip.
Proof.
  intros prev skip Hpos Hrepl. revert prev skip.
  induction s as [|c s IH]; intros prev skip; cbn [Re.sub_go].
  - destruct skip; [|done].
    destruct (Re.match_at r prev []) as [rest|] eqn:E; [|done].
    apply match_at_length in E. cbn in E. lia.
  - destruct skip as [|n].
    + destruct (Re.match_at r prev (c :: s)) as [rest|] eqn:E.
      * apply match_at_length in E. cbn [length] in *.
        destruct (S (length s) - length rest) as [|n] eqn:En; [lia|].
        rewrite length_app. specialize (IH (Some c) n). lia.
      * cbn. specialize (IH (Some c) 0). lia.
    + cbn. apply IH.
Qed.

Lemma sub_length (r : regex) (repl s : str) :
  1 <= Re.min_length r -> length repl <= Re.min_length r ->
  length (Re.sub r repl s) <= length s.
Proof.
  intros Hpos Hrepl. unfold Re.sub.
  pose proof (sub_go_length r repl s None 0 Hpos Hrepl). lia.
Qed.

Lemma startswith_length (p s : str) :
  Py.startswith p s = true -> length p <= length s.
Proof. intros [post ->]%startswith_spec. rewrite length_app. lia. Qed.

Lemma replace_go_length (old new s : str) : forall skip,
  length new <= length old ->
  length (replace_go old new s skip) <= length s - skip.
Proof.
  intros skip Hnew. revert skip.
  induction s as [|c s IH]; intros skip; cbn [replace_go]; [cbn; lia|].
  destruct skip as [|n].
  - destruct (Py.startswith old (c :: s)) eqn:E.
    + apply startswith_length in E. cbn [length] in *.
      rewrite length_app. specialize (IH (length old - 1)). lia.
    + cbn. specialize (IH 0). lia.
  - cbn. apply IH.
Qed.

Lemma replace_length (old new s : str) :
  1 <= length old -> length new <= length old ->
  length (replace old new s) <= length s.
Proof.
  intros Hold Hnew. unfold replace. destruct old as [|a old]; [cbn in Hold; lia|].
  pose proof (replace_go_length (a :: old) new s 0 Hnew). lia.
Qed.

(** ** The sanitizers *)

Lemma _filter_train_data_length (content : str) :
  length (_filter_train_data content) <= 12000 + 15.
Proof.
  unfold _filter_train_data, _replace_links. cbv zeta.
  set (c0 := if 12000 <? length content then _ else content).
  assert (H0 : length c0 <= 12000 + 15).
  { unfold c0. destruct (12000 <? length content) eqn:E.
    - rewrite length_app, length_take. cbn [length String.list_ascii_of_string]. lia.
    - apply Nat.ltb_ge in E. lia. }
  etransitivity; [apply sub_length; cbn; lia|].
  etransitivity; [apply sub_length; cbn; lia|].
  etransitivity; [apply sub_length; cbn; lia|].
  etransitivity; [apply replace_length; cbn; lia|].
  etransitivity; [apply replace_length; cbn; lia|].
  etransitivity; [apply replace_length; cbn; lia|].
  etransitivity; [apply replace_length; cbn; lia|].
  etransitivity; [apply sub_length; cbn; lia|].
  exact H0.
Qed.


Lemma split_nonempty (sep : ascii) (s : str) : split sep s <> [].
Proof.
  destruct s as [|c s]; cbn; [done|]. case_bool_decide; [done|].
  by destruct (split sep s).
Qed.

Lemma split_no_sep (sep : ascii) (s : str) :
  Forall (fun line => sep ∉ line) (split sep s).
Proof.
  induction s as [|c s IH]; cbn.
  - repeat constructor. set_solver.
  - case_bool_decide as Hc.
    + constructor; [set_solver|done].
    + destruct (split sep s) as [|cur rest].
      * apply Forall_singleton. intros [->|Hin%elem_of_nil]%elem_of_cons; done.
      * apply Forall_cons in IH as [Hcur Hrest]. apply Forall_cons. split; [|done].
        intros [->|Hin]%elem_of_cons; done.
Qed.

Lemma split_app_sep (sep : ascii) (p t : str) :
  sep ∉ p -> split sep (p ++ sep :: t) = p :: split sep t.
Proof.
  induction p as [|c p IH]; intros Hp; cbn.
  - by rewrite bool_decide_eq_true_2.
  - rewrite bool_decide_eq_false_2 by set_solver.
    rewrite IH by set_solver. done.
Qed.

Lemma split_line (sep : ascii) (p : str) : sep ∉ p -> split sep p = [p].
Proof.
  induction p as [|c p IH]; intros Hp; cbn; [done|].
  rewrite bool_decide_eq_false_2 by set_solver.
  rewrite IH by set_solver. done.
Qed.

Lemma split_join (sep : ascii) (lines : list str) :
  lines <> [] -> Forall (fun line => sep ∉ line) lines ->
  split sep (join [sep] lines) = lines.
Proof.
  induction lines as [|p lines IH]; [done|]. intros _ HF.
  inversion HF as [|? ? Hp HF']; subst.
  destruct lines as [|q lines].
  - cbn. by apply split_line.
  - change (join [sep] (p :: q :: lines))
      with (p ++ sep :: join [sep] (q :: lines)).
    rewrite split_app_sep by done. rewrite IH; done.
Qed.

(** The line cap of [_clean_observation]. *)
Lemma _clean_observation_lines (obs_text : str) :
  let lines := split newline (redact obs_text) in
  (500 < length lines ->
     _clean_observation obs_text =
       join [newline] (take 250 lines ++ [("..." : str)] ++ last_n 250 lines) /\
     split newline (_clean_observation obs_text) =
       take 250 lines ++ [("..." : str)] ++ last_n 250 lines /\
     length (split newline (_clean_observation obs_text)) = 501) /\
  (length lines <= 500 -> _clean_observation obs_text = redact obs_text).
Proof.
  cbv zeta. unfold _clean_observation. cbv zeta.
  set (lines := split newline (redact obs_text)). split.
  - intros Hlen. apply Nat.ltb_lt in Hlen as Hlt. rewrite Hlt.
    split; [done|].
    assert (Hsplit : split newline (join [newline]
                       (take 250 lines ++ [("..." : str)] ++ last_n 250 lines))
                     = take 250 lines ++ [("..." : str)] ++ last_n 250 lines).
    { apply split_join.
      - intros Hnil. apply (f_equal length) in Hnil.
        rewrite !length_app in Hnil. cbn in Hnil. lia.
      - pose proof (split_no_sep newline (redact obs_text)) as HF. fold lines in HF.
        apply Forall_app. split; [by apply Forall_take|].
        apply Forall_app. split.
        + apply Forall_singleton. apply (bool_decide_unpack _). by vm_compute.
        + unfold last_n. by apply Forall_drop. }
    split; [done|]. rewrite Hsplit.
    rewrite !length_app, length_take. unfold last_n. rewrite length_drop.
    cbn [length]. lia.
  - intros Hlen. apply Nat.ltb_ge in Hlen. by rewrite Hlen.
Qed.



(** ** Text on which a substitution finds no match *)













(** *** Redaction *)


Section regex_suffix.
Context {R : Type}.
Implicit Types (k : option ascii -> str -> option R) (s : str) (r : regex).



End regex_suffix.




(** *** What the turns see of a capped field *)








(** * Further properties *)

(** ** The counters of analyze_trajectories.py *)

Lemma count_backtracking_loop_spec (trajectory : list item) : forall b t,
  count_backtracking_loop trajectory b t =
    (b + length (filter (fun it => is_action it && is_backtrack it) trajectory),
     t + length (filter (fun it => is_action it) trajectory)).
Proof.
  induction trajectory as [|it rest IH]; intros b t; cbn [count_backtracking_loop].
  - cbn. f_equal; lia.
  - rewrite !filter_bool_cons. destruct (is_action it), (is_backtrack it);
      rewrite IH; cbn; f_equal; lia.
Qed.

Lemma length_filter_kept (items : list item) :
  length (filter (fun it => kept it) items)
  + length (filter (fun it => is_action it && is_backtrack it) items)
  = length items.
Proof.
  induction items as [|it items IH]; [done|].
  rewrite !filter_bool_cons. unfold kept at 1.
  destruct (is_action it && is_backtrack it); cbn; lia.
Qed.

(** X1. The two counts of [count_backtracking_actions] are ordered:
    backtracking actions are among the actions, and the actions among
    the items. *)
Theorem count_backtracking_actions_bounds (trajectory : list item) :
  (count_backtracking_actions trajectory).1 <= (count_backtracking_actions trajectory).2 /\
  (count_backtracking_actions trajectory).2 <= length trajectory.
Proof.
  unfold count_backtracking_actions. rewrite count_backtracking_loop_spec. cbn.
  split; [|apply length_filter].
  induction trajectory as [|it rest IH]; [done|].
  rewrite !filter_bool_cons. destruct (is_action it), (is_backtrack it); cbn; lia.
Qed.

(** X2. Flattening shortens a trajectory by exactly the number of
    backtracking actions that [count_backtracking_actions] reports. *)
Theorem try_flattening_length (h : heap) (trajectory : loc)
    (refs : list loc) (items : list item) :
  h !! trajectory = Some (CList refs) ->
  items_at h refs = Some items ->
  exists (h' : heap) (flattened : loc) (out_refs : list loc) (valid : bool),
    try_flattening trajectory h = Some ((flattened, valid), h') /\
    h' !! flattened = Some (CList out_refs) /\
    length out_refs + (count_backtracking_actions items).1 = length refs.
Proof.
  intros Ht Hit.
  destruct (try_flattening_run h trajectory refs items Ht Hit)
    as (h' & out & new & Hrun & Ho & Hitn & _).
  exists h', out, new, (has_state_action_pair (filter (fun it => kept it) items)).
  split; [done|]. split; [done|].
  apply items_at_spec, Forall2_length in Hitn, Hit.
  unfold count_backtracking_actions. rewrite count_backtracking_loop_spec. cbn.
  rewrite Hitn, Hit. apply length_filter_kept.
Qed.

Lemma try_flattening_length_witness :
  exists (h' : heap) (flattened : loc) (out_refs : list loc) (valid : bool),
    try_flattening 8%positive sample_heap = Some ((flattened, valid), h') /\
    h' !! flattened = Some (CList out_refs) /\
    length out_refs + 1 = 7.
Proof.
  destruct (try_flattening_length sample_heap 8%positive sample_refs sample_items)
    as (h' & fl & out_refs & valid & Hrun & Ho & Hlen); [reflexivity|reflexivity|].
  exists h', fl, out_refs, valid. split; [done|]. split; [done|]. exact Hlen.
Defined.

Lemma is_action_not_dict (it : item) : is_action it = true -> is_dict it = false.
Proof. by destruct it. Qed.

Lemma current_type_cases (it : item) :
  (is_dict it = true /\ is_action it = false /\ current_type it = TState) \/
  (is_dict it = false /\ is_action it = true /\ current_type it = TAction) \/
  (is_dict it = false /\ is_action it = false /\ current_type it = TUnknown).
Proof.
  unfold current_type. destruct it as [d|o]; cbn; [by left|].
  unfold is_action. cbn. destruct (raw_prediction o); [right; left|right; right]; done.
Qed.

Lemma analyze_loop_spec (trajectory : list item) : forall s a b f alt prev,
  analyze_loop trajectory s a b f alt prev =
    (s + length (filter (fun it => is_dict it) trajectory),
     a + length (filter (fun it => is_action it) trajectory),
     b + length (filter (fun it => is_action it && is_backtrack it) trajectory),
     f + length (filter (fun it => is_action it && negb (is_backtrack it)) trajectory),
     alt && alternates prev trajectory).
Proof.
  induction trajectory as [|it rest IH]; intros s a b f alt prev.
  - cbn. rewrite andb_true_r. repeat f_equal; lia.
  - cbn [analyze_loop alternates]. rewrite !filter_bool_cons.
    assert (Halt : (if bool_decide (prev = Some (current_type it)) then false else alt)
                   && alternates (Some (current_type it)) rest
                   = alt && (negb (bool_decide (prev = Some (current_type it)))
                             && alternates (Some (current_type it)) rest)).
    { destruct (bool_decide _), alt; done. }
    destruct (current_type_cases it) as [(Ed & Ea & Ec)|[(Ed & Ea & Ec)|(Ed & Ea & Ec)]];
      rewrite Ec in *; rewrite Ed, Ea; cbn [andb].
    + rewrite IH, Halt. cbn. repeat f_equal; lia.
    + destruct (is_backtrack it); rewrite IH, Halt; cbn; repeat f_equal; lia.
    + rewrite IH, Halt. cbn. repeat f_equal; lia.
Qed.

Lemma alternates_spec (l : list item) : forall prev,
  alternates prev l = true <->
  (forall it, head l = Some it -> prev <> Some (current_type it)) /\
  (forall i a b, l !! i = Some a -> l !! S i = Some b ->
     current_type a <> current_type b).
Proof.
  induction l as [|it rest IH]; intros prev; cbn [alternates].
  - split; [|done]. intros _. split; [done|]. by intros i a b [=].
  - rewrite andb_true_iff, negb_true_iff, bool_decide_eq_false, IH. split.
    + intros (Hp & Hh & Hadj). split.
      * by intros it' [= <-].
      * intros [|i] a b Ha Hb; cbn in *.
        -- injection Ha as <-. intros Heq. apply (Hh b); [by destruct rest; simplify_eq|].
           by rewrite Heq.
        -- eauto.
    + intros (Hh & Hadj). split; [by apply Hh|]. split.
      * intros b Hb Heq. destruct rest as [|b' rest]; [done|]. injection Hb as ->.
        apply (Hadj 0 it b); [done|done|]. by injection Heq.
      * intros i a b Ha Hb. by apply (Hadj (S i)).
Qed.

(** X3. [analyze_trajectory] gives no statistics for an empty trajectory,
    and for any other one its counters are consistent: the total is the
    length, backtracking and forward actions add up to the actions,
    states and actions are at most the total, and the action counts are
    those of [count_backtracking_actions]. *)
Theorem analyze_trajectory_counts (trajectory : list item) :
  (analyze_trajectory trajectory = None <-> trajectory = []) /\
  forall st, analyze_trajectory trajectory = Some st ->
    total_length st = length trajectory /\
    backtrack_count st + forward_count st = action_count st /\
    state_count st + action_count st <= total_length st /\
    count_backtracking_actions trajectory = (backtrack_count st, action_count st).
Proof.
  split.
  - destruct trajectory as [|first rest]; [done|]. unfold analyze_trajectory.
    rewrite analyze_loop_spec. done.
  - intros st. destruct trajectory as [|first rest]; [done|]. unfold analyze_trajectory.
    rewrite analyze_loop_spec. intros [= <-]. cbn [total_length backtrack_count
      forward_count action_count state_count Nat.add].
    unfold count_backtracking_actions. rewrite count_backtracking_loop_spec.
    change (S (length rest)) with (length (first :: rest)).
    generalize (first :: rest). clear. intros l.
    split; [done|]. split; [|split; [|done]].
    + induction l as [|it l IH]; [done|]. rewrite !filter_bool_cons.
      destruct (is_action it), (is_backtrack it); cbn; lia.
    + induction l as [|it l IH]; [done|]. rewrite !filter_bool_cons.
      destruct (current_type_cases it) as [(Ed & Ea & _)|[(Ed & Ea & _)|(Ed & Ea & _)]];
        rewrite Ed, Ea; cbn; lia.
Qed.

Lemma analyze_trajectory_counts_witness :
  exists st, analyze_trajectory sample_items = Some st /\
    total_length st = 7 /\ backtrack_count st + forward_count st = action_count st.
Proof.
  eexists. split; [reflexivity|].
  destruct (proj2 (analyze_trajectory_counts sample_items) _ eq_refl) as (H1 & H2 & _).
  split; [exact H1|exact H2].
Defined.

(** X4. The [is_alternating] flag of [analyze_trajectory] is set exactly
    when no two neighbouring items have the same type (state, action or
    unknown). *)
Theorem analyze_trajectory_alternating (trajectory : list item) (st : trajectory_stats) :
  analyze_trajectory trajectory = Some st ->
  (is_alternating st = true <->
   forall i a b, trajectory !! i = Some a -> trajectory !! S i = Some b ->
     current_type a <> current_type b).
Proof.
  intros Hst.
  assert (Halt : is_alternating st = alternates None trajectory).
  { destruct trajectory as [|first rest]; [done|]. unfold analyze_trajectory in Hst.
    rewrite analyze_loop_spec in Hst. injection Hst as <-. reflexivity. }
  rewrite Halt, alternates_spec. split.
  - intros [_ H]. exact H.
  - intros H. split; [done|exact H].
Qed.

Lemma analyze_trajectory_alternating_witness :
  exists st, analyze_trajectory sample_items = Some st /\ is_alternating st = true.
Proof.
  eexists. split; [reflexivity|].
  apply (analyze_trajectory_alternating sample_items _ eq_refl).
  intros i a b Ha Hb.
  do 7 (destruct i as [|i]; [cbn in Ha, Hb; simplify_eq; try discriminate|]).
  discriminate Ha.
Defined.

(** ** The validity flag of try_flattening *)

Lemma has_state_action_pair_spec (l : list item) :
  has_state_action_pair l = true <->
  exists l1 s a l2, l = l1 ++ s :: a :: l2 /\ is_dict s /\ is_action a.
Proof.
  induction l as [|x l IH]; cbn [has_state_action_pair].
  - split; [done|]. intros (l1 & s & a & l2 & H & _). by destruct l1.
  - destruct l as [|y l].
    + split; [done|]. intros (l1 & s & a & l2 & H & _).
      destruct l1 as [|? [|? ?]]; done.
    + rewrite orb_true_iff, andb_true_iff, IH. split.
      * intros [[Hx Hy]|(l1 & s & a & l2 & -> & Hs & Ha)].
        -- exists [], x, y, l. by rewrite !Is_true_true.
        -- exists (x :: l1), s, a, l2. done.
      * intros (l1 & s & a & l2 & H & Hs & Ha). destruct l1 as [|z l1].
        -- injection H as -> -> ->. left. by rewrite <- !Is_true_true.
        -- injection H as -> H. right. eauto 10.
Qed.

Lemma filter_head_inv {A} (P : A -> bool) (l : list A) (b : A) (l2 : list A) :
  filter (fun x => P x) l = b :: l2 ->
  exists mid post, l = mid ++ b :: post /\ Forall (fun x => P x = false) mid /\
    P b = true /\ filter (fun x => P x) post = l2.
Proof.
  induction l as [|x l IH]; [done|]. rewrite filter_bool_cons.
  destruct (P x) eqn:Ex.
  - intros [= -> <-]. exists [], l. done.
  - intros (mid & post & -> & Hmid & Hb & Hpost)%IH.
    exists (x :: mid), post. split; [done|]. split; [by constructor|done].
Qed.

Lemma filter_adjacent_inv {A} (P : A -> bool) (l : list A) : forall l1 a b l2,
  filter (fun x => P x) l = l1 ++ a :: b :: l2 ->
  exists pre mid post, l = pre ++ a :: mid ++ b :: post /\
    P a = true /\ P b = true /\ Forall (fun x => P x = false) mid.
Proof.
  induction l as [|x l IH]; intros l1 a b l2.
  - by destruct l1.
  - rewrite filter_bool_cons. destruct (P x) eqn:Ex.
    + destruct l1 as [|y l1]; cbn [app].
      * intros [= -> H]. apply filter_head_inv in H as (mid & post & -> & Hmid & Hb & _).
        exists [], mid, post. done.
      * intros [= -> H]. apply IH in H as (pre & mid & post & -> & Ha & Hb & Hmid).
        exists (y :: pre), mid, post. done.
    + intros (pre & mid & post & -> & Ha & Hb & Hmid)%IH.
      exists (x :: pre), mid, post. done.
Qed.

Lemma filter_all_false {A} (P : A -> bool) (l : list A) :
  Forall (fun x => P x = false) l -> filter (fun x => P x) l = [].
Proof.
  induction 1 as [|x l Hx _ IH]; [done|]. by rewrite filter_bool_cons, Hx.
Qed.

Lemma kept_false (it : item) :
  kept it = false <-> is_action it = true /\ is_backtrack it = true.
Proof. unfold kept. rewrite negb_false_iff, andb_true_iff. done. Qed.

(** The flag in terms of the input items. *)
Lemma flattened_valid_spec (items : list item) :
  has_state_action_pair (filter (fun it => kept it) items) = true <->
  exists pre s mid a post,
    items = pre ++ s :: mid ++ a :: post /\
    is_dict s /\ is_action a /\ ~ is_backtrack a /\
    Forall (fun it => is_action it /\ is_backtrack it) mid.
Proof.
  rewrite has_state_action_pair_spec. split.
  - intros (l1 & s & a & l2 & Hf & Hs & Ha).
    apply filter_adjacent_inv in Hf as (pre & mid & post & -> & Hks & Hka & Hmid).
    exists pre, s, mid, a, post. split; [done|]. split; [done|]. split; [done|]. split.
    + intros Hb. unfold kept in Hka. apply Is_true_true in Ha, Hb.
      by rewrite Ha, Hb in Hka.
    + eapply Forall_impl; [exact Hmid|]. intros it [H1 H2]%kept_false.
      by rewrite !Is_true_true.
  - intros (pre & s & mid & a & post & -> & Hs & Ha & Hb & Hmid).
    exists (filter (fun it => kept it) pre), s, a, (filter (fun it => kept it) post).
    split; [|done].
    rewrite filter_app, filter_bool_cons, filter_app, filter_bool_cons.
    rewrite (filter_all_false kept mid).
    + assert (Hks : kept s = true) by (apply Is_true_true; by apply is_dict_kept).
      assert (Hka : kept a = true).
      { unfold kept. apply negb_true_iff, andb_false_iff. right.
        by apply negb_true_iff, Is_true_true, negb_prop_intro. }
      by rewrite Hks, Hka.
    + eapply Forall_impl; [exact Hmid|]. intros it [H1 H2].
      apply kept_false. by rewrite <- !Is_true_true.
Qed.

(** X5. The flattened trajectory is reported valid exactly when the input
    holds a state followed by a non-backtracking action with nothing but
    backtracking actions between the two. *)
Theorem try_flattening_valid (h : heap) (trajectory : loc)
    (refs : list loc) (items : list item) :
  h !! trajectory = Some (CList refs) ->
  items_at h refs = Some items ->
  exists (h' : heap) (flattened : loc) (valid : bool),
    try_flattening trajectory h = Some ((flattened, valid), h') /\
    (valid = true <->
     exists pre s mid a post,
       items = pre ++ s :: mid ++ a :: post /\
       is_dict s /\ is_action a /\ ~ is_backtrack a /\
       Forall (fun it => is_action it /\ is_backtrack it) mid).
Proof.
  intros Ht Hit.
  destruct (try_flattening_run h trajectory refs items Ht Hit)
    as (h' & out & new & Hrun & _).
  exists h', out, (has_state_action_pair (filter (fun it => kept it) items)).
  split; [done|]. apply flattened_valid_spec.
Qed.

Lemma try_flattening_valid_witness :
  exists (h' : heap) (flattened : loc),
    try_flattening 8%positive sample_heap = Some ((flattened, true), h').
Proof.
  destruct (try_flattening_valid sample_heap 8%positive sample_refs sample_items)
    as (h' & fl & valid & Hrun & Hvalid); [reflexivity|reflexivity|].
  exists h', fl. rewrite Hrun. do 3 f_equal. apply Hvalid.
  exists [], (sample_state "http://gitlab/a"), [], (sample_action "click [12]"),
    (drop 2 sample_items).
  split; [reflexivity|]. split; [exact I|]. split; [exact I|]. split; [|constructor].
  intros H. exact H.
Defined.

(** X6. When every action of a trajectory backtracks (or it has no
    action at all), the flattened trajectory is reported invalid. *)
Theorem try_flattening_all_backtracking (h : heap) (trajectory : loc)
    (refs : list loc) (items : list item) :
  h !! trajectory = Some (CList refs) ->
  items_at h refs = Some items ->
  Forall (fun it => is_action it -> is_backtrack it) items ->
  exists (h' : heap) (flattened : loc),
    try_flattening trajectory h = Some ((flattened, false), h').
Proof.
  intros Ht Hit Hall.
  destruct (try_flattening_run h trajectory refs items Ht Hit)
    as (h' & out & new & Hrun & _).
  exists h', out. rewrite Hrun. do 3 f_equal.
  apply not_true_is_false. intros Hv.
  apply flattened_valid_spec in Hv as (pre & s & mid & a & post & -> & _ & Ha & Hb & _).
  apply Forall_app in Hall as [_ Hall]. apply Forall_cons in Hall as [_ Hall].
  apply Forall_app in Hall as [_ Hall]. apply Forall_cons in Hall as [Hab _].
  by apply Hb, Hab.
Qed.

Lemma try_flattening_all_backtracking_witness :
  exists (h' : heap) (flattened : loc),
    try_flattening 5%positive only_backtracking_heap = Some ((flattened, false), h').
Proof.
  apply (try_flattening_all_backtracking only_backtracking_heap 5%positive
           [1; 2; 3; 4]%positive only_backtracking_items).
  - reflexivity.
  - reflexivity.
  - unfold only_backtracking_items.
    repeat (apply Forall_cons; split;
            [intros Ha; first [exact I | exact (False_ind _ Ha)]|]).
    apply Forall_nil_2.
Defined.

(** X7. Flattening is idempotent on items: flattening the result of a
    flattening gives a list of the same items, with the same validity
    flag. *)
Theorem try_flattening_twice (h : heap) (trajectory : loc)
    (refs : list loc) (items : list item) :
  h !! trajectory = Some (CList refs) ->
  items_at h refs = Some items ->
  exists (h1 h2 : heap) (flattened1 flattened2 : loc) (refs1 refs2 : list loc)
         (out_items : list item) (valid : bool),
    try_flattening trajectory h = Some ((flattened1, valid), h1) /\
    h1 !! flattened1 = Some (CList refs1) /\
    items_at h1 refs1 = Some out_items /\
    try_flattening flattened1 h1 = Some ((flattened2, valid), h2) /\
    h2 !! flattened2 = Some (CList refs2) /\
    items_at h2 refs2 = Some out_items.
Proof.
  intros Ht Hit.
  destruct (try_flattening_run h trajectory refs items Ht Hit)
    as (h1 & fl1 & refs1 & Hrun1 & Ho1 & Hit1 & _).
  destruct (try_flattening_run h1 fl1 refs1 _ Ho1 Hit1)
    as (h2 & fl2 & refs2 & Hrun2 & Ho2 & Hit2 & _).
  rewrite (filter_filter_impl kept kept) in Hrun2, Hit2 by done.
  exists h1, h2, fl1, fl2, refs1, refs2, (filter (fun it => kept it) items),
    (has_state_action_pair (filter (fun it => kept it) items)).
  done.
Qed.

Lemma try_flattening_twice_witness :
  exists (h1 h2 : heap) (flattened1 flattened2 : loc) (valid : bool),
    try_flattening 8%positive sample_heap = Some ((flattened1, valid), h1) /\
    try_flattening flattened1 h1 = Some ((flattened2, valid), h2).
Proof.
  destruct (try_flattening_twice sample_heap 8%positive sample_refs sample_items)
    as (h1 & h2 & fl1 & fl2 & refs1 & refs2 & out & valid & H1 & _ & _ & H2 & _);
    [reflexivity|reflexivity|].
  exists h1, h2, fl1, fl2, valid. done.
Defined.

(** ** The two gates of simplified_process_react.py *)

(** X8. [_filter_messages] rejects what [_filter_chat_format] rejects and,
    besides, the lists whose final content holds an error keyword or a
    backtracking phrase: it is the stricter of the two gates. *)
Theorem _filter_messages_vs_chat_format (messages : list message) (strict_mode : bool) :
  _filter_messages messages strict_mode =
    _filter_chat_format messages
    || content_rejected (content (messages !!! (length messages - 1))).
Proof.
  unfold _filter_messages, _filter_chat_format, content_rejected. cbv zeta.
  destruct (bool_decide (messages = []) || (length messages <? 3)); [done|].
  assert (Hex : existsb
            (fun i => (0 <? i)
                      && bool_decide (role (messages !!! i) = role (messages !!! (i + 1))))
            (seq 1 (length messages - 1 - 1))
          = existsb
              (fun i => bool_decide (role (messages !!! i) = role (messages !!! (i + 1))))
              (seq 1 (length messages - 1 - 1))).
  { generalize (length messages - 1 - 1). intros n.
    assert (H : forall a, 1 <= a ->
              existsb (fun i => (0 <? i)
                        && bool_decide (role (messages !!! i) = role (messages !!! (i + 1))))
                (seq a n)
              = existsb (fun i => bool_decide (role (messages !!! i)
                                               = role (messages !!! (i + 1))))
                  (seq a n)).
    { induction n as [|n IH]; intros a Ha; [done|]. cbn [seq existsb].
      rewrite IH by lia. destruct a; [lia|]. done. }
    by apply H. }
  rewrite Hex. clear Hex.
  destruct (existsb
              (fun i => bool_decide (role (messages !!! i) = role (messages !!! (i + 1))))
              (seq 1 (length messages - 1 - 1)));
    destruct (negb (bool_decide (role (messages !!! (length messages - 1))
                                 = ("assistant" : str))));
    destruct (bool_decide (content (messages !!! (length messages - 1)) = [])
              || Py.strip_is_empty (content (messages !!! (length messages - 1))));
    destruct (_check_error_messages (content (messages !!! (length messages - 1))));
    destruct (Py.str_in ("go_back" : str)
                (Py.lower (content (messages !!! (length messages - 1)))));
    destruct (Py.str_in ("take a step back" : str)
                (Py.lower (content (messages !!! (length messages - 1)))));
    reflexivity.
Qed.

(** ** More on the token-budget trimmer *)

Lemma messages_split (messages : list message) :
  0 < length messages - 6 ->
  messages = messages !!! 0 :: middle_1_n 6 messages ++ last_n 6 messages.
Proof.
  intros Hlen. unfold middle_1_n, last_n.
  rewrite <- (take_drop (length messages - 6) messages) at 1.
  destruct messages as [|m0 rest]; [cbn in Hlen; lia|].
  destruct (length (m0 :: rest) - 6) as [|k] eqn:Ek; [lia|]. done.
Qed.

(** X9. The count [check_context_size] returns is the token total of the
    list it returns, in every branch. *)
Theorem check_context_size_count
    (messages : list message) (tok : option tokenizer) (max_tokens : Z) :
  (check_context_size messages tok max_tokens).2
  = total_tokens (check_context_size messages tok max_tokens).1 tok.
Proof.
  destruct (decide (total_tokens messages tok <= max_tokens)%Z) as [Hle|Hgt].
  { by rewrite (check_context_size_within _ _ _ Hle). }
  destruct (decide (length messages <= 7)) as [Hlen|Hlen].
  { by rewrite (check_context_size_short _ _ max_tokens Hlen). }
  destruct (check_context_size_trim tok messages max_tokens)
    as (n & _ & Hrun & _); [lia|lia|].
  by rewrite Hrun.
Qed.

(** X10. The trimmer only drops turns: what it returns is a sub-multiset
    of its input that starts with the input's first turn and ends with
    the input's last six turns. *)
Theorem check_context_size_keeps
    (messages : list message) (tok : option tokenizer) (max_tokens : Z) :
  let out := (check_context_size messages tok max_tokens).1 in
  out ⊆+ messages /\
  head out = head messages /\
  last_n 6 out = last_n 6 messages /\
  length out <= length messages.
Proof.
  cbv zeta.
  destruct (decide (total_tokens messages tok <= max_tokens)%Z) as [Hle|Hgt].
  { by rewrite (check_context_size_within _ _ _ Hle). }
  destruct (decide (length messages <= 7)) as [Hlen|Hlen].
  { by rewrite (check_context_size_short _ _ max_tokens Hlen). }
  destruct (check_context_size_trim tok messages max_tokens)
    as (n & Hn & Hrun & _); [lia|lia|].
  rewrite Hrun. cbn [fst].
  pose proof (messages_split messages ltac:(lia)) as Hsplit.
  set (middle := middle_1_n 6 messages) in *.
  set (last6 := last_n 6 messages) in *.
  assert (Hl6 : length last6 = 6).
  { unfold last6, last_n. rewrite length_drop. lia. }
  assert (Hsub : messages !!! 0 :: reverse (take n middle) ++ last6 ⊆+ messages).
  { rewrite Hsplit at 2. apply submseteq_skip, submseteq_app; [|done].
    rewrite reverse_Permutation. apply sublist_submseteq, sublist_take. }
  split; [exact Hsub|]. split; [|split].
  - by rewrite Hsplit at 2.
  - unfold last_n at 1. cbn [length]. rewrite length_app, Hl6.
    replace (S (length (reverse (take n middle)) + 6) - 6)
      with (S (length (reverse (take n middle)))) by lia.
    cbn [drop]. by rewrite drop_app_length.
  - by apply submseteq_length.
Qed.

(** X11. On a list of more than seven turns, when the first turn and the
    last six fit in the budget, the trimmer returns a list within the
    budget. *)
Theorem check_context_size_within_budget
    (messages : list message) (tok : option tokenizer) (max_tokens : Z) :
  7 < length messages ->
  (total_tokens (messages !!! 0%nat :: last_n 6 messages) tok <= max_tokens)%Z ->
  (total_tokens (check_context_size messages tok max_tokens).1 tok <= max_tokens)%Z.
Proof.
  intros Hlen Hkept.
  destruct (decide (total_tokens messages tok <= max_tokens)%Z) as [Hle|Hgt].
  { by rewrite (check_context_size_within _ _ _ Hle). }
  destruct (check_context_size_trim tok messages max_tokens)
    as (n & _ & Hrun & [Hfit | ->] & _); [lia|lia| |].
  - by rewrite Hrun.
  - rewrite Hrun. cbn [fst]. by rewrite take_0.
Qed.

Lemma check_context_size_within_budget_witness :
  (total_tokens (check_context_size ten_turns None 9).1 None <= 9)%Z.
Proof.
  apply (check_context_size_within_budget ten_turns None 9).
  - cbn. lia.
  - vm_compute. discriminate.
Defined.

(** X12. When it trims, the trimmer re-inserts a prefix of the middle
    turns (the turns between the first and the last six), in reverse
    order behind the first turn, and stops at the first middle turn that
    does not fit in what is left of the budget. *)
Theorem check_context_size_greedy
    (messages : list message) (tok : option tokenizer) (max_tokens : Z) :
  (max_tokens < total_tokens messages tok)%Z ->
  7 < length messages ->
  exists n : nat,
    let middle := middle_1_n 6 messages in
    let out := messages !!! 0 :: reverse (take n middle) ++ last_n 6 messages in
    (n <= length middle) /\
    (check_context_size messages tok max_tokens).1 = out /\
    (forall m, middle !! n = Some m ->
       (max_tokens < total_tokens out tok + count_tokens (content m) tok)%Z).
Proof.
  intros Hgt Hlen.
  destruct (check_context_size_trim tok messages max_tokens Hgt Hlen)
    as (n & Hn & Hrun & _ & Hstop).
  exists n. cbv zeta. split; [done|]. split; [by rewrite Hrun|done].
Qed.

Lemma check_context_size_greedy_witness :
  exists n : nat,
    (check_context_size ten_turns None 9).1 =
      ten_turns !!! 0 :: reverse (take n (middle_1_n 6 ten_turns)) ++ last_n 6 ten_turns.
Proof.
  destruct (check_context_size_greedy ten_turns None 9) as (n & _ & Hout & _).
  - vm_compute. reflexivity.
  - cbn. lia.
  - exists n. exact Hout.
Defined.

(** ** Post-processing of a turn list *)

Lemma postprocess_content_assistant (aggressive : bool) (content : str) :
  postprocess_content aggressive ("assistant" : str) content =
    let c := _filter_train_data content in
    if _check_error_messages c then None
    else Some (if 2000 <? length c then take 2000 c ++ ("...[truncated]" : str) else c).
Proof. reflexivity. Qed.

Lemma postprocess_content_None (aggressive : bool) (role content : str) :
  postprocess_content aggressive role content = None <->
  role = ("assistant" : str) /\
  _check_error_messages (_filter_train_data content) = true.
Proof.
  split.
  - unfold postprocess_content. cbv zeta.
    destruct (bool_decide (role = ("assistant" : str))) eqn:Er; [|done].
    apply bool_decide_eq_true in Er. subst role.
    rewrite (bool_decide_eq_false_2 (("assistant" : str) = ("user" : str))) by done.
    cbn [andb]. destruct (_check_error_messages _); done.
  - intros [-> He]. rewrite postprocess_content_assistant. cbv zeta. by rewrite He.
Qed.

(** X13. [_trainable_chat_postprocessing] gives up on a turn list
    ([return None]) exactly when the sanitized content of one of its
    assistant turns holds an error keyword. *)
Theorem _trainable_chat_postprocessing_None
    (messages : list message) (tok : option tokenizer) (max_tokens : Z) :
  _trainable_chat_postprocessing messages tok max_tokens = None <->
  exists m, m ∈ messages /\ role m = ("assistant" : str) /\
    _check_error_messages (_filter_train_data (content m)) = true.
Proof.
  unfold _trainable_chat_postprocessing. cbv zeta.
  generalize (max_tokens <? total_tokens messages tok)%Z. intros aggressive.
  induction messages as [|msg rest IH]; cbn [postprocess_loop].
  - split; [done|]. intros (m & Hm & _). by apply elem_of_nil in Hm.
  - destruct (postprocess_content aggressive (role msg) (content msg)) as [c|] eqn:Ec;
      cbn [mbind option_bind].
    + destruct (postprocess_loop aggressive rest) as [processed|] eqn:Er;
        cbn [mbind option_bind].
      * split; [done|]. intros (m & [->|Hm]%elem_of_cons & Hr & He).
        -- assert (Hn : postprocess_content aggressive (role msg) (content msg) = None)
             by (by apply postprocess_content_None).
           congruence.
        -- assert (Hn : Some processed = None) by (apply IH; eauto).
           done.
      * split; [intros _|done].
        destruct (proj1 IH eq_refl) as (m & Hm & Hr & He).
        exists m. split; [apply elem_of_cons; by right|done].
    + split; [intros _|done]. apply postprocess_content_None in Ec as [Hr He].
      exists msg. split; [apply elem_of_cons; by left|done].
Qed.

(** X14. When [_trainable_chat_postprocessing] returns a turn list, it
    has the roles of the input, turn for turn; its assistant contents are
    capped at 2,000 characters and a 14-character marker, and every
    content other than a user's has at most 12,015 characters. *)
Theorem _trainable_chat_postprocessing_shape
    (messages out : list message) (tok : option tokenizer) (max_tokens : Z) :
  _trainable_chat_postprocessing messages tok max_tokens = Some out ->
  role <$> out = role <$> messages /\
  Forall (fun m => role m = ("assistant" : str) -> length (content m) <= 2000 + 14) out /\
  Forall (fun m => role m <> ("user" : str) -> length (content m) <= 12000 + 15) out.
Proof.
  unfold _trainable_chat_postprocessing. cbv zeta.
  generalize (max_tokens <? total_tokens messages tok)%Z. intros aggressive.
  revert out. induction messages as [|msg rest IH]; intros out; cbn [postprocess_loop].
  - intros [= <-]. done.
  - destruct (postprocess_content aggressive (role msg) (content msg)) as [c|] eqn:Ec;
      cbn [mbind option_bind]; [|done].
    destruct (postprocess_loop aggressive rest) as [processed|] eqn:Er;
      cbn [mbind option_bind]; [|done].
    intros [= <-]. destruct (IH processed eq_refl) as (Hroles & Hasst & Hother).
    split; [cbn; by rewrite Hroles|]. split.
    + apply Forall_cons. split; [|done]. cbn [role content]. intros Hr.
      rewrite Hr, postprocess_content_assistant in Ec. cbv zeta in Ec.
      destruct (_check_error_messages _); [done|]. injection Ec as <-.
      destruct (2000 <? length (_filter_train_data (content msg))) eqn:El.
      * rewrite length_app, length_take. cbn [length String.list_ascii_of_string]. lia.
      * apply Nat.ltb_ge in El. lia.
    + apply Forall_cons. split; [|done]. cbn [role content]. intros Hr.
      unfold postprocess_content in Ec. cbv zeta in Ec.
      rewrite (bool_decide_eq_false_2 _ Hr) in Ec. cbn [andb] in Ec.
      pose proof (_filter_train_data_length (content msg)) as Hlen.
      destruct (bool_decide (role msg = ("assistant" : str))).
      * destruct (_check_error_messages _); [done|]. injection Ec as <-.
        destruct (2000 <? length (_filter_train_data (content msg))) eqn:El; [|done].
        assert (H2 : 2000 <= 12000) by (apply Nat.leb_le; vm_compute; reflexivity).
        rewrite length_app, length_take. cbn [length String.list_ascii_of_string]. lia.
      * by injection Ec as <-.
Qed.

Lemma _trainable_chat_postprocessing_shape_witness :
  exists out, _trainable_chat_postprocessing go_back_turns None 100 = Some out /\
    role <$> out = role <$> go_back_turns.
Proof.
  eexists. split; [reflexivity|].
  eapply (_trainable_chat_postprocessing_shape go_back_turns _ None 100). reflexivity.
Defined.

(** ** Building the turn lists *)

Section turn_lists.
Variables (action_history observations actions : list str).

Lemma later_turns_app (h o a : list str) (s1 s2 : list nat) :
  later_turns h o a (s1 ++ s2) =
    m1 ← later_turns h o a s1; m2 ← later_turns h o a s2; Some (m1 ++ m2).
Proof.
  induction s1 as [|i s1 IH]; cbn [app later_turns].
  - cbn. by destruct (later_turns h o a s2).
  - destruct (o !! i) as [obs|]; [|done]. destruct (a !! i) as [act|]; [|done].
    cbn [mbind option_bind]. rewrite IH.
    destruct (later_turns h o a s1) as [m1|]; [|done]. cbn [mbind option_bind].
    by destruct (later_turns h o a s2).
Qed.

Lemma later_turns_take (e : nat) (steps : list nat) :
  Forall (fun i => i < e) steps ->
  later_turns (take (e + 1) action_history) (take e observations) (take e actions) steps
  = later_turns action_history observations actions steps.
Proof.
  induction 1 as [|i steps Hi _ IH]; [done|]. cbn [later_turns]. cbv zeta.
  rewrite IH, !lookup_take_lt by done.
  rewrite take_take. by replace ((i + 1) `min` (e + 1)) with (i + 1) by lia.
Qed.

Lemma later_turns_Some (steps : list nat) :
  Forall (fun i => i < length observations /\ i < length actions) steps ->
  is_Some (later_turns action_history observations actions steps).
Proof.
  induction 1 as [|i steps [Ho Ha] _ [more IH]]; [by eexists|]. cbn [later_turns].
  apply lookup_lt_is_Some in Ho as [obs ->], Ha as [act ->].
  cbn [mbind option_bind]. rewrite IH. by eexists.
Qed.

Lemma later_turns_seq (n : nat) : forall a more,
  later_turns action_history observations actions (seq a n) = Some more ->
  role <$> more = mjoin (replicate n [("user" : str); ("assistant" : str)]) /\
  content <$> filter (fun m => role m = ("assistant" : str)) more
    = take n (drop a actions).
Proof.
  induction n as [|n IH]; intros a more; cbn [seq later_turns].
  - intros [= <-]. by rewrite take_0.
  - destruct (observations !! a) as [obs|]; [|done].
    destruct (actions !! a) as [act|] eqn:Ea; [|done]. cbn [mbind option_bind].
    destruct (later_turns _ _ _ (seq (S a) n)) as [more'|] eqn:Em; [|done].
    cbn [mbind option_bind]. intros [= <-].
    destruct (IH _ _ Em) as [Hr Hc]. split.
    + cbn. by rewrite Hr.
    + rewrite filter_cons_False by done. rewrite filter_cons_True by done.
      cbn [fmap list_fmap content]. fold (fmap (M:=list) content).
      rewrite Hc. by rewrite (drop_S _ _ _ Ea).
Qed.

Lemma partial_messages_eq (task_intent : option str) (end_idx : nat) :
  1 <= end_idx ->
  partial_messages task_intent action_history observations actions end_idx =
    more ← later_turns action_history observations actions (seq 1 (end_idx - 1));
    Some (opening_turns (default ("No intent available" : str) task_intent)
            action_history observations actions ++ more).
Proof.
  intros He. unfold partial_messages, opening_turns. cbv zeta.
  rewrite later_turns_take.
  2: { apply Forall_forall. intros i Hi%list_elem_of_In%in_seq. lia. }
  assert (Hinit : forall intent,
            initial_prompt intent (take end_idx observations)
              (take (end_idx + 1) action_history)
            = initial_prompt intent observations action_history).
  { intros intent. unfold initial_prompt. cbv zeta.
    rewrite take_take. replace (1 `min` (end_idx + 1)) with 1 by lia.
    destruct end_idx as [|e]; [lia|]. by destruct observations. }
  rewrite Hinit.
  assert (Hact : match take end_idx actions with
                 | a0 :: _ => [Message ("assistant" : str) a0]
                 | [] => []
                 end = match actions with
                       | a0 :: _ => [Message ("assistant" : str) a0]
                       | [] => []
                       end).
  { destruct end_idx as [|e]; [lia|]. by destruct actions. }
  destruct (later_turns _ _ _ _) as [more|]; [|done]. cbn [mbind option_bind].
  f_equal. f_equal. destruct end_idx as [|e]; [lia|]. by destruct actions.
Qed.

Lemma partial_messages_Some (task_intent : option str) (end_idx : nat) :
  1 <= end_idx <= length actions -> length actions <= length observations ->
  is_Some (partial_messages task_intent action_history observations actions end_idx).
Proof.
  intros He Hlen. rewrite partial_messages_eq by lia.
  destruct (later_turns_Some (seq 1 (end_idx - 1))) as [more ->]; [|by eexists].
  apply Forall_forall. intros i Hi%list_elem_of_In%in_seq. lia.
Qed.

End turn_lists.

(** X15. A turn list built for [end_idx] steps has [2 * end_idx + 1]
    turns: the system turn, then user and assistant turns in turn; its
    assistant contents are the first [end_idx] actions, in order. *)
Theorem partial_messages_structure (task_intent : option str)
    (action_history observations actions : list str) (end_idx : nat)
    (messages : list message) :
  1 <= end_idx <= length actions ->
  partial_messages task_intent action_history observations actions end_idx
    = Some messages ->
  length messages = 2 * end_idx + 1 /\
  role <$> messages =
    ("system" : str) :: mjoin (replicate end_idx [("user" : str); ("assistant" : str)]) /\
  content <$> filter (fun m => role m = ("assistant" : str)) messages
    = take end_idx actions.
Proof.
  intros He. rewrite partial_messages_eq by lia.
  destruct (later_turns _ _ _ _) as [more|] eqn:Em; [|done].
  cbn [mbind option_bind]. intros [= <-].
  destruct (later_turns_seq _ _ _ _ _ _ Em) as [Hr Hc].
  destruct actions as [|a0 acts]; [cbn in He; lia|].
  destruct end_idx as [|e]; [lia|].
  replace (S e - 1) with e in * by lia.
  change (opening_turns (default ("No intent available" : str) task_intent)
            action_history observations (a0 :: acts) ++ more)
    with (Message ("system" : str) SYSTEM_PROMPT
          :: Message ("user" : str)
               (initial_prompt (default ("No intent available" : str) task_intent)
                  observations action_history)
          :: Message ("assistant" : str) a0 :: more).
  assert (Hroles : role <$> (Message ("system" : str) SYSTEM_PROMPT
                     :: Message ("user" : str)
                          (initial_prompt (default ("No intent available" : str) task_intent)
                             observations action_history)
                     :: Message ("assistant" : str) a0 :: more)
                   = ("system" : str)
                     :: mjoin (replicate (S e) [("user" : str); ("assistant" : str)])).
  { cbn. by rewrite Hr. }
  split; [|split; [exact Hroles|]].
  - apply (f_equal length) in Hroles. rewrite length_fmap in Hroles.
    etransitivity; [exact Hroles|].
    cbn [length]. replace (2 * S e + 1) with (S (2 * S e)) by lia. f_equal. clear.
    assert (H : forall n, length (mjoin (replicate n [("user" : str); ("assistant" : str)]))
                          = 2 * n).
    { induction n as [|n IH]; [done|].
      change (mjoin (replicate (S n) [("user" : str); ("assistant" : str)]))
        with (("user" : str) :: ("assistant" : str)
              :: mjoin (replicate n [("user" : str); ("assistant" : str)])).
      cbn [length]. rewrite IH. lia. }
    apply H.
  - unfold opening_turns. cbn [app].
    rewrite filter_cons_False by done. rewrite filter_cons_False by done.
    rewrite filter_cons_True by done. cbn [fmap list_fmap content].
    fold (fmap (M:=list) content). rewrite Hc. done.
Qed.

Lemma partial_messages_structure_witness :
  exists messages,
    partial_messages None sample_history sample_observations sample_actions 2
      = Some messages /\ length messages = 5.
Proof.
  eexists. split; [reflexivity|].
  eapply (partial_messages_structure None sample_history sample_observations
            sample_actions 2); [cbn; lia|reflexivity].
Defined.

(** X16. The turn lists built for successive step counts extend one
    another: the list for [end_idx] steps is a prefix of the list for
    [end_idx + 1] steps. *)
Theorem partial_messages_prefix (task_intent : option str)
    (action_history observations actions : list str) (end_idx : nat)
    (shorter longer : list message) :
  1 <= end_idx ->
  partial_messages task_intent action_history observations actions end_idx
    = Some shorter ->
  partial_messages task_intent action_history observations actions (S end_idx)
    = Some longer ->
  shorter `prefix_of` longer.
Proof.
  intros He. rewrite !partial_messages_eq by lia.
  replace (S end_idx - 1) with ((end_idx - 1) + 1) by lia.
  rewrite seq_app, later_turns_app.
  generalize (opening_turns (default ("No intent available" : str) task_intent)
                action_history observations actions). intros base.
  destruct (later_turns _ _ _ (seq 1 (end_idx - 1))) as [more|]; [|done].
  cbn [mbind option_bind]. intros [= <-].
  destruct (later_turns _ _ _ _) as [extra|]; [|done]. cbn [mbind option_bind].
  intros [= <-]. rewrite app_assoc. by apply prefix_app_r.
Qed.

Lemma partial_messages_prefix_witness :
  exists shorter longer,
    partial_messages None sample_history sample_observations sample_actions 2
      = Some shorter /\
    partial_messages None sample_history sample_observations sample_actions 3
      = Some longer /\
    shorter `prefix_of` longer.
Proof.
  eexists _, _. split; [reflexivity|]. split; [reflexivity|].
  eapply (partial_messages_prefix None sample_history sample_observations
            sample_actions 2); [lia|reflexivity|reflexivity].
Defined.

Lemma partial_loop_spec (task_intent : option str)
    (action_history observations actions : list str) (strict_mode : bool)
    (end_idxs : list nat) :
  Forall (fun k => is_Some (partial_messages task_intent action_history
                              observations actions k)) end_idxs ->
  exists partials,
    partial_loop task_intent action_history observations actions strict_mode end_idxs
      = Some partials /\
    length partials <= length end_idxs /\
    Forall (fun p => _filter_messages p strict_mode = false /\
                     exists k, k ∈ end_idxs /\
                       partial_messages task_intent action_history observations
                         actions k = Some p) partials.
Proof.
  induction 1 as [|k idxs [msgs Hk] _ (partials & Hrun & Hlen & Hall)].
  - exists []. repeat split; [cbn; lia|constructor].
  - cbn [partial_loop]. rewrite Hk, Hrun. cbn [mbind option_bind].
    assert (Hall' : Forall (fun p => _filter_messages p strict_mode = false /\
                     exists k', k' ∈ k :: idxs /\
                       partial_messages task_intent action_history observations
                         actions k' = Some p) partials).
    { eapply Forall_impl; [exact Hall|]. intros p [Hp (k' & Hin & Hk')].
      split; [done|]. exists k'. split; [apply elem_of_cons; by right|done]. }
    destruct (_filter_messages msgs strict_mode) eqn:Ef; cbn [negb].
    + exists partials. split; [done|]. split; [cbn; lia|done].
    + exists (msgs :: partials). split; [done|]. split; [cbn; lia|].
      apply Forall_cons. split; [|done]. split; [done|].
      exists k. split; [apply elem_of_cons; by left|done].
Qed.

Lemma create_partials_spec (task_intent : option str)
    (action_history observations actions : list str)
    (max_traj_length : nat) (strict_mode : bool) :
  length actions <= length observations ->
  exists partials,
    _create_partial_trajectories task_intent action_history observations actions
      max_traj_length strict_mode = Some partials /\
    length partials <= length actions `min` (max_traj_length / 2) /\
    Forall (fun p => _filter_messages p strict_mode = false /\
                     exists k, 1 <= k <= length actions `min` (max_traj_length / 2) /\
                       partial_messages task_intent action_history observations
                         actions k = Some p) partials.
Proof.
  intros Hlen. unfold _create_partial_trajectories. cbv zeta.
  set (num := length actions `min` (max_traj_length / 2)).
  destruct (partial_loop_spec task_intent action_history observations actions
              strict_mode (seq 1 num)) as (partials & Hrun & Hl & Hall).
  - apply Forall_forall. intros k Hk%list_elem_of_In%in_seq.
    apply partial_messages_Some; lia.
  - exists partials. split; [done|]. rewrite length_seq in Hl. split; [done|].
    eapply Forall_impl; [exact Hall|]. intros p [Hp (k & Hk%list_elem_of_In%in_seq & Hpk)].
    split; [done|]. exists k. split; [lia|done].
Qed.

(** X17. With at least as many observations as actions,
    [_create_partial_trajectories] returns: at most
    [min(len(actions), max_traj_length // 2)] turn lists, each of them the
    turn list built for some step count in that range, and each accepted
    by [_filter_messages]. *)
Theorem _create_partial_trajectories_accepted (task_intent : option str)
    (action_history observations actions : list str)
    (max_traj_length : nat) (strict_mode : bool) :
  length actions <= length observations ->
  exists partials,
    _create_partial_trajectories task_intent action_history observations actions
      max_traj_length strict_mode = Some partials /\
    length partials <= length actions `min` (max_traj_length / 2) /\
    Forall (fun p => _filter_messages p strict_mode = false /\
                     exists k, 1 <= k <= length actions `min` (max_traj_length / 2) /\
                       partial_messages task_intent action_history observations
                         actions k = Some p) partials.
Proof. apply create_partials_spec. Qed.

Lemma _create_partial_trajectories_accepted_witness :
  exists partials,
    _create_partial_trajectories None sample_history sample_observations
      sample_actions 16 true = Some partials /\
    length partials <= 3.
Proof.
  destruct (_create_partial_trajectories_accepted None sample_history
              sample_observations sample_actions 16 true) as (ps & Hrun & Hl & _).
  - cbn. lia.
  - exists ps. split; [exact Hrun|exact Hl].
Defined.

Lemma later_turns_None (h o a : list str) (steps : list nat) (i : nat) :
  i ∈ steps -> o !! i = None -> later_turns h o a steps = None.
Proof.
  induction steps as [|j steps IH]; intros Hin Ho.
  - by apply elem_of_nil in Hin.
  - cbn [later_turns]. apply elem_of_cons in Hin as [<-|Hin].
    + by rewrite Ho.
    + destruct (o !! j); [|done]. destruct (a !! j); [|done].
      cbn [mbind option_bind]. by rewrite IH.
Qed.

Lemma partial_loop_None (task_intent : option str)
    (action_history observations actions : list str) (strict_mode : bool)
    (end_idxs : list nat) (k : nat) :
  k ∈ end_idxs ->
  partial_messages task_intent action_history observations actions k = None ->
  partial_loop task_intent action_history observations actions strict_mode end_idxs
    = None.
Proof.
  induction end_idxs as [|j idxs IH]; intros Hin Hk.
  - by apply elem_of_nil in Hin.
  - cbn [partial_loop]. apply elem_of_cons in Hin as [<-|Hin].
    + by rewrite Hk.
    + destruct (partial_messages _ _ _ _ j); [|done]. cbn [mbind option_bind].
      by rewrite IH.
Qed.

(** X18. [_create_partial_trajectories] fails with an [IndexError] (and
    returns nothing, the turn lists already built included) whenever it
    is to build at least two steps and more steps than there are
    observations. *)
Theorem _create_partial_trajectories_index_error (task_intent : option str)
    (action_history observations actions : list str)
    (max_traj_length : nat) (strict_mode : bool) :
  2 <= length actions `min` (max_traj_length / 2) ->
  length observations < length actions `min` (max_traj_length / 2) ->
  _create_partial_trajectories task_intent action_history observations actions
    max_traj_length strict_mode = None.
Proof.
  intros H2 Hlt. unfold _create_partial_trajectories. cbv zeta.
  set (num := length actions `min` (max_traj_length / 2)) in *.
  apply (partial_loop_None _ _ _ _ _ _ num).
  - apply list_elem_of_In, in_seq. lia.
  - unfold partial_messages. cbv zeta.
    rewrite (later_turns_None _ _ _ _ (num - 1)); [done| |].
    + apply list_elem_of_In, in_seq. lia.
    + apply lookup_ge_None. rewrite length_take. lia.
Qed.

Lemma _create_partial_trajectories_index_error_witness :
  _create_partial_trajectories None sample_history (take 1 sample_observations)
    sample_actions 16 true = None.
Proof.
  apply _create_partial_trajectories_index_error.
  - cbn. lia.
  - cbn. lia.
Defined.

(** X19. The full turn list that [process_trajectories] builds when
    partial trajectories are switched off is the turn list
    [_create_partial_trajectories] builds for all the actions. *)
Theorem full_messages_is_last_partial (intent : str)
    (action_history observations actions : list str) :
  1 <= length actions <= length observations ->
  full_messages intent action_history observations actions =
    partial_messages (Some intent) action_history observations actions
      (length actions).
Proof.
  intros Hlen. rewrite partial_messages_eq by lia. unfold full_messages. cbv zeta.
  replace (length actions `min` length observations) with (length actions) by lia.
  destruct actions as [|a0 acts]; [cbn in Hlen; lia|]. reflexivity.
Qed.

Lemma full_messages_is_last_partial_witness :
  full_messages ("find bugs" : str) sample_history sample_observations sample_actions =
    partial_messages (Some ("find bugs" : str)) sample_history sample_observations
      sample_actions 3.
Proof.
  apply (full_messages_is_last_partial ("find bugs" : str) sample_history
           sample_observations sample_actions).
  cbn. lia.
Defined.

(** X20. After the balancing step of [process_trajectories] there are at
    least as many observations as actions and at most one more;
    actions, observations and history are cut at the end only; and
    [_create_partial_trajectories] on the balanced lists does not fail. *)
Theorem balance_spec (actions observations action_history : list str)
    (task_intent : option str) (max_traj_length : nat) (strict_mode : bool) :
  let '(actions', observations', action_history') :=
    balance actions observations action_history in
  length actions' <= length observations' <= length actions' + 1 /\
  actions' `prefix_of` actions /\
  observations' `prefix_of` observations /\
  action_history' `prefix_of` action_history /\
  is_Some (_create_partial_trajectories task_intent action_history' observations'
             actions' max_traj_length strict_mode).
Proof.
  unfold balance.
  destruct (length observations <? length actions) eqn:E1.
  - apply Nat.ltb_lt in E1.
    assert (Hl : length (take (length observations) actions) = length observations)
      by (rewrite length_take; lia).
    split; [lia|]. split; [apply prefix_take|]. split; [done|].
    split; [apply prefix_take|].
    destruct (create_partials_spec task_intent
                (take (length observations) action_history) observations
                (take (length observations) actions) max_traj_length strict_mode)
      as (ps & -> & _); [lia|by eexists].
  - apply Nat.ltb_ge in E1. destruct (length actions + 1 <? length observations) eqn:E2.
    + apply Nat.ltb_lt in E2.
      assert (Hl : length (take (length actions + 1) observations) = length actions + 1)
        by (rewrite length_take; lia).
      split; [lia|]. split; [done|]. split; [apply prefix_take|]. split; [done|].
      destruct (create_partials_spec task_intent action_history
                  (take (length actions + 1) observations) actions
                  max_traj_length strict_mode) as (ps & -> & _); [lia|by eexists].
    + apply Nat.ltb_ge in E2. split; [lia|]. do 3 (split; [done|]).
      destruct (create_partials_spec task_intent action_history
                  observations actions max_traj_length strict_mode)
        as (ps & -> & _); [lia|by eexists].
Qed.

(** ** The counters of analyze_o4_mini_trajectories.py *)

Lemma count_actions_loop_spec (trajectory : list item) : forall n,
  count_actions_loop trajectory n
  = n + length (filter (fun it => negb (is_dict it)) trajectory).
Proof.
  induction trajectory as [|it rest IH]; intros n; cbn [count_actions_loop].
  - cbn. lia.
  - rewrite filter_bool_cons. destruct (negb (is_dict it)); rewrite IH; cbn; lia.
Qed.

Lemma count_actions_spec (trajectory : list item) :
  count_actions trajectory = length (filter (fun it => negb (is_dict it)) trajectory).
Proof.
  destruct trajectory as [|it rest]; [done|]. unfold count_actions.
  by rewrite count_actions_loop_spec.
Qed.

(** X21. [count_actions] counts the items that are no states, which is
    also the number of entries of [extract_action_types]; it is at least
    the [action_count] of [analyze_trajectory], which leaves the objects
    without [raw_prediction] out. *)
Theorem count_actions_relations (type_attr : item -> option str)
    (class_name : item -> str) (trajectory : list item) :
  count_actions trajectory + length (filter (fun it => is_dict it) trajectory)
    = length trajectory /\
  length (extract_action_types type_attr class_name trajectory)
    = count_actions trajectory /\
  forall st, analyze_trajectory trajectory = Some st ->
    state_count st + count_actions trajectory = total_length st /\
    action_count st <= count_actions trajectory.
Proof.
  rewrite count_actions_spec. split; [|split].
  - induction trajectory as [|it rest IH]; [done|]. rewrite !filter_bool_cons.
    destruct (is_dict it); cbn; lia.
  - induction trajectory as [|it rest IH]; [done|].
    cbn [extract_action_types]. rewrite filter_bool_cons.
    destruct (negb (is_dict it)); cbn; by rewrite IH.
  - intros st Hst.
    assert (Hs : state_count st = length (filter (fun it => is_dict it) trajectory) /\
                 action_count st = length (filter (fun it => is_action it) trajectory) /\
                 total_length st = length trajectory).
    { destruct trajectory as [|first rest]; [done|]. unfold analyze_trajectory in Hst.
      rewrite analyze_loop_spec in Hst. injection Hst as <-. done. }
    destruct Hs as (-> & -> & ->). clear Hst. split.
    + induction trajectory as [|it rest IH]; [done|]. rewrite !filter_bool_cons.
      destruct (is_dict it); cbn; lia.
    + induction trajectory as [|it rest IH]; [done|]. rewrite !filter_bool_cons.
      destruct (current_type_cases it) as [(Ed & Ea & _)|[(Ed & Ea & _)|(Ed & Ea & _)]];
        rewrite Ed, Ea; cbn; lia.
Qed.

Lemma count_actions_relations_witness :
  exists st, analyze_trajectory sample_items = Some st /\
    action_count st <= count_actions sample_items.
Proof.
  eexists. split; [reflexivity|].
  apply (proj2 (proj2 (count_actions_relations (fun _ => None) (fun _ => [])
                         sample_items)) _ eq_refl).
Defined.

Lemma o4_loop_spec (files : list traj_file) : forall total successful failed r,
  o4_loop files total successful failed = Some r ->
  exists s f,
    r = (total + s + f, successful + s, failed + f) /\
    s + f = length (filter (fun tf => bool_decide (is_Some (tf_loaded tf))) files).
Proof.
  induction files as [|tf rest IH]; intros total successful failed r; cbn [o4_loop].
  - intros [= <-]. exists 0, 0. split; [|done]. by rewrite !Nat.add_0_r.
  - rewrite filter_bool_cons. destruct (tf_loaded tf) as [[trajectory score]|].
    + rewrite bool_decide_eq_true_2 by eauto.
      destruct (o4_is_successful score (tf_perf_data tf)) as [[|]|];
        cbn [mbind option_bind]; try done.
      * intros (s & f & -> & Hsf)%IH. exists (S s), f.
        split; [|cbn; lia]. by rewrite !Nat.add_succ_r, !Nat.add_succ_l.
      * intros (s & f & -> & Hsf)%IH. exists s, (S f).
        split; [|cbn; lia]. by rewrite !Nat.add_succ_r, !Nat.add_succ_l.
    + rewrite bool_decide_eq_false_2 by (by intros [? ?]).
      apply IH.
Qed.

Lemma o4_loop_successes (files : list traj_file) : forall total successful failed r,
  o4_loop files total successful failed = Some r ->
  r.1.2 = successful + length (filter (fun tf => traj_is_successful tf) files).
Proof.
  induction files as [|tf rest IH]; intros total successful failed r; cbn [o4_loop].
  - intros [= <-]. cbn. lia.
  - rewrite filter_bool_cons. unfold traj_is_successful at 1.
    destruct (tf_loaded tf) as [[trajectory score]|]; [|apply IH].
    destruct (o4_is_successful score (tf_perf_data tf)) as [[|]|];
      cbn [mbind option_bind]; try done.
    + rewrite bool_decide_eq_true_2 by done. intros ->%IH. cbn [length]. lia.
    + rewrite bool_decide_eq_false_2 by done. apply IH.
Qed.

(** X22. When [analyze_trajectories] returns, successes and failures add
    up to the trajectories counted, which are the files whose trajectory
    loaded, and the successes are the loaded files with a positive score:
    the score of the trajectory file or, when it carries none, the
    [scores] entry of its performance record. *)
Theorem analyze_trajectories_counters (files : list traj_file) (r : o4_results) :
  analyze_trajectories files = Some r ->
  successful_tasks r + failed_tasks r = total_trajectories r /\
  total_trajectories r
    = length (filter (fun tf => bool_decide (is_Some (tf_loaded tf))) files) /\
  total_trajectories r <= length files /\
  successful_tasks r = length (filter (fun tf => traj_is_successful tf) files).
Proof.
  unfold analyze_trajectories.
  destruct (o4_loop files 0 0 0) as [[[total successful] failed]|] eqn:E; [|done].
  cbn [mbind option_bind]. intros [= <-].
  cbn [successful_tasks failed_tasks total_trajectories].
  pose proof (o4_loop_successes _ _ _ _ _ E) as Hs. cbn in Hs.
  apply o4_loop_spec in E as (s & f & [= -> -> ->] & Hsf). cbn [Nat.add].
  split; [lia|]. split; [lia|]. split; [rewrite Hsf; apply length_filter|].
  exact Hs.
Qed.

Lemma analyze_trajectories_counters_witness :
  exists r, analyze_trajectories two_trajectory_files = Some r /\
    successful_tasks r + failed_tasks r = total_trajectories r.
Proof.
  eexists. split; [reflexivity|].
  apply (analyze_trajectories_counters two_trajectory_files _ eq_refl).
Defined.

(** ** The reducer of analyze_trajectory_success.py *)





(** X25. In [analyze_performance_files] a positive numeric [score] makes
    a record successful whatever its other fields say; without one, a
    [completed] field decides alone, overriding [success] and
    [is_success]. *)
Theorem performance_is_success_precedence (data : gmap string json) :
  (forall score, data !! "score"%string = Some score ->
     is_positive_number score = true -> performance_is_success data = true) /\
  (forall completed, data !! "completed"%string = Some completed ->
     (forall score, data !! "score"%string = Some score ->
        is_positive_number score = false) ->
     performance_is_success data = truthy completed).
Proof.
  unfold performance_is_success, probe. split.
  - intros score -> ->. done.
  - intros completed -> Hscore. destruct (data !! "score"%string) as [score|]; [|done].
    by rewrite (Hscore score eq_refl).
Qed.

Lemma performance_is_success_precedence_witness :
  performance_is_success perf_success_not_completed = false.
Proof.
  apply (proj2 (performance_is_success_precedence perf_success_not_completed)
           (JBool false)).
  - reflexivity.
  - intros score H. discriminate H.
Defined.

(** ** More on the sanitizers *)

(** X26. [_filter_train_data] does not lengthen a field that is within
    the cap of 12,000 characters: none of its substitutions puts in more
    than it takes out. *)
Theorem _filter_train_data_no_longer (content : str) :
  length content <= 12000 ->
  length (_filter_train_data content) <= length content.
Proof.
  intros Hlen. unfold _filter_train_data, _replace_links. cbv zeta.
  apply Nat.ltb_ge in Hlen. rewrite Hlen.
  etransitivity; [apply sub_length; cbn; lia|].
  etransitivity; [apply sub_length; cbn; lia|].
  etransitivity; [apply sub_length; cbn; lia|].
  etransitivity; [apply replace_length; cbn; lia|].
  etransitivity; [apply replace_length; cbn; lia|].
  etransitivity; [apply replace_length; cbn; lia|].
  etransitivity; [apply replace_length; cbn; lia|].
  apply sub_length; cbn; lia.
Qed.

Lemma _filter_train_data_no_longer_witness :
  length (_filter_train_data ("see  https://a.b/c?d  and www.x" : str)) <= 31.
Proof.
  apply (_filter_train_data_no_longer ("see  https://a.b/c?d  and www.x" : str)).
  apply Nat.leb_le. vm_compute. reflexivity.
Defined.

(** X27. Whatever the text, what [_clean_observation] returns has at most
    501 lines. *)
Theorem _clean_observation_line_cap (obs_text : str) :
  length (split newline (_clean_observation obs_text)) <= 501.
Proof.
  destruct (_clean_observation_lines obs_text) as [Hlong Hshort].
  destruct (decide (500 < length (split newline (redact obs_text)))) as [H|H].
  - destruct (Hlong H) as (_ & _ & ->). lia.
  - rewrite Hshort by lia. lia.
Qed.

(** X28. [_check_error_messages] flags a content exactly when one of the
    five error keywords occurs in it in some letter case: when some run
    of its characters lower-cases to the keyword. *)
Theorem _check_error_messages_any_case (content : str) :
  _check_error_messages content = true <->
  exists keyword pre x post,
    keyword ∈ error_keywords /\ content = pre ++ x ++ post /\ Py.lower x = keyword.
Proof.
  rewrite _check_error_messages_spec. split.
  - intros (kw & Hin & (pre & x & post & -> & Hx)%occurs_in_lower). eauto 10.
  - intros (kw & pre & x & post & Hin & -> & Hx). exists kw. split; [done|].
    apply occurs_in_lower. eauto.
Qed.

Lemma _check_error_messages_any_case_witness :
  _check_error_messages ("click [99] - Element Not Found" : str) = true.
Proof.
  apply (proj2 (_check_error_messages_any_case ("click [99] - Element Not Found" : str))).
  exists ("element not found" : str), ("click [99] - " : str),
    ("Element Not Found" : str), [].
  split; [|split; reflexivity].
  unfold error_keywords. apply elem_of_cons. right. apply elem_of_cons. by left.
Defined.

Lemma _trainable_chat_postprocessing_None_witness :
  _trainable_chat_postprocessing error_turns None 16000 = None.
Proof.
  apply (proj2 (_trainable_chat_postprocessing_None error_turns None 16000)).
  exists (assistant_msg "click [99] - Element Not Found").
  split; [|split; reflexivity].
  unfold error_turns. apply elem_of_cons. right. apply elem_of_cons. right.
  apply elem_of_cons. by left.
Defined.

